(** * Indicator pipeline of [aggregation/market_data.py]

    A shallow embedding of [MarketData.preprocess_data] and of the
    [IntradayData] iterator, together with the part of pandas they call.
    [HistoricalData.preprocess_data] repeats the body of
    [MarketData.preprocess_data] line for line and is covered by it.

    Numbers.  The program computes on IEEE doubles held in pandas columns,
    where NaN is the missing-value marker.  The embedding keeps NaN and the
    two infinities as separate values and idealises every finite double as a
    real number: rounding, overflow and the sign of zero are not modelled.
    A cell is "null" exactly when it is [NaN] (pandas [isna]). *)

From Stdlib Require Import Reals Lra Lia ZArith Bool Ascii String List.
Import ListNotations.

Local Open Scope R_scope.

(** ** Extended reals standing for the float cells *)

Inductive float : Type :=
| NaN
| PInf
| NInf
| Fin (r : R).

Definition Rltb (x y : R) : bool := if Rlt_dec x y then true else false.
Definition Reqb (x y : R) : bool := if Req_dec_T x y then true else false.

Definition isna (x : float) : bool :=
  match x with NaN => true | _ => false end.

Definition notna (x : float) : bool := negb (isna x).

Definition fneg (x : float) : float :=
  match x with
  | NaN => NaN
  | PInf => NInf
  | NInf => PInf
  | Fin r => Fin (- r)
  end.

Definition fadd (x y : float) : float :=
  match x, y with
  | NaN, _ | _, NaN => NaN
  | PInf, NInf | NInf, PInf => NaN
  | PInf, _ | _, PInf => PInf
  | NInf, _ | _, NInf => NInf
  | Fin a, Fin b => Fin (a + b)
  end.

Definition fsub (x y : float) : float := fadd x (fneg y).

(** Sign of a non-NaN value: [Some true] positive, [Some false] negative,
    [None] zero. *)
Definition fsign (x : float) : option bool :=
  match x with
  | NaN => None
  | PInf => Some true
  | NInf => Some false
  | Fin r => if Rltb 0 r then Some true else if Rltb r 0 then Some false else None
  end.

Definition finf (positive : bool) : float := if positive then PInf else NInf.

Definition fmul (x y : float) : float :=
  match x, y with
  | NaN, _ | _, NaN => NaN
  | Fin a, Fin b => Fin (a * b)
  | _, _ =>
      match fsign x, fsign y with
      | Some sx, Some sy => finf (Bool.eqb sx sy)
      | _, _ => NaN                       (* inf * 0 *)
      end
  end.

Definition fdiv (x y : float) : float :=
  match x, y with
  | NaN, _ | _, NaN => NaN
  | (PInf | NInf), (PInf | NInf) => NaN
  | Fin _, (PInf | NInf) => Fin 0
  | PInf, Fin b => finf (negb (Rltb b 0))
  | NInf, Fin b => finf (Rltb b 0)
  | Fin a, Fin b =>
      if Reqb b 0 then
        match fsign x with
        | Some s => finf s                (* a / 0, a <> 0 *)
        | None => NaN                     (* 0 / 0 *)
        end
      else Fin (a / b)
  end.

Definition fsqrt (x : float) : float :=
  match x with
  | NaN | NInf => NaN
  | PInf => PInf
  | Fin r => if Rltb r 0 then NaN else Fin (sqrt r)
  end.

(** [x > y] and [x < y] on floats: false as soon as one side is NaN. *)
Definition fgtb (x y : float) : bool :=
  match x, y with
  | NaN, _ | _, NaN => false
  | PInf, PInf | NInf, _ => false
  | PInf, _ => true
  | Fin _, PInf => false
  | Fin _, NInf => true
  | Fin a, Fin b => Rltb b a
  end.

Definition fltb (x y : float) : bool := fgtb y x.

(** A Python int or float literal used as a scalar operand. *)
Definition lit (z : Z) : float := Fin (IZR z).

(** ** The pandas operations the program calls *)

Definition Series := list float.
Definition Timestamp := Z.

Module pd.

(** Elementwise binary operator of two series on the same index. *)
Definition zip_with {A B C} (f : A -> B -> C) (l : list A) (l' : list B) : list C :=
  map (fun p => f (fst p) (snd p)) (combine l l').

(** [s.diff()]: first difference, NaN at position 0. *)
Definition diff (s : Series) : Series :=
  match s with
  | [] => []
  | _ :: t => NaN :: zip_with fsub t s
  end.

(** [s > c] and [s < c] against a scalar. *)
Definition gt (s : Series) (c : float) : list bool := map (fun x => fgtb x c) s.
Definition lt (s : Series) (c : float) : list bool := map (fun x => fltb x c) s.

(** [s.where(cond, other)]: keep the entry where [cond] holds, put
    [other] elsewhere. *)
Definition where_ (s : Series) (cond : list bool) (other : float) : Series :=
  zip_with (fun x (c : bool) => if c then x else other) s cond.

(** [-s], [s1 / s2], [c + s], [c / s], [c - s], [s * c], [s1 + s2], [s1 - s2]. *)
Definition neg (s : Series) : Series := map fneg s.
Definition div (s1 s2 : Series) : Series := zip_with fdiv s1 s2.
Definition radd (c : float) (s : Series) : Series := map (fadd c) s.
Definition rdiv (c : float) (s : Series) : Series := map (fdiv c) s.
Definition rsub (c : float) (s : Series) : Series := map (fsub c) s.
Definition mul (s : Series) (c : float) : Series := map (fun x => fmul x c) s.
Definition add (s1 s2 : Series) : Series := zip_with fadd s1 s2.
Definition sub (s1 s2 : Series) : Series := zip_with fsub s1 s2.

(** The rows [max 0 (i+1-w) .. i] of [s]: the trailing window at [i]. *)
Definition window {A} (w i : nat) (s : list A) : list A :=
  firstn (S i - (S i - w)) (skipn (S i - w) s).

Definition fsum (l : Series) : float := fold_right fadd (Fin 0) l.

Definition count (l : Series) : float := Fin (IZR (Z.of_nat (length l))).

Definition mean (obs : Series) : float := fdiv (fsum obs) (count obs).

(** Variance with [ddof] delta degrees of freedom, and its square root. *)
Definition var (ddof : Z) (obs : Series) : float :=
  let m := mean obs in
  fdiv (fsum (map (fun x => fmul (fsub x m) (fsub x m)) obs))
       (Fin (IZR (Z.of_nat (length obs) - ddof))).

Definition std (ddof : Z) (obs : Series) : float := fsqrt (var ddof obs).

(** [s.rolling(window=w).agg()]: at each position the aggregate of the
    non-NaN observations of the trailing window, NaN when there are fewer
    than [min_periods] of them; [min_periods] defaults to [w]. *)
Definition rolling (w : nat) (agg : Series -> float) (s : Series) : Series :=
  map (fun i =>
         let obs := filter notna (window w i s) in
         if (length obs <? w)%nat then NaN else agg obs)
      (seq 0 (length s)).

Definition rolling_mean (w : nat) (s : Series) : Series := rolling w mean s.
Definition rolling_std (w : nat) (s : Series) : Series := rolling w (std 1) s.

(** [fillna(method='ffill')] on one column: a NaN takes the last value
    seen before it that is not NaN, and stays NaN when there is none. *)
Fixpoint ffill_from (last : float) (s : Series) : Series :=
  match s with
  | [] => []
  | x :: t => if isna x then last :: ffill_from last t else x :: ffill_from x t
  end.

Definition ffill_series (s : Series) : Series := ffill_from NaN s.

(** Keep the entries of [l] whose mask bit is set. *)
Definition keep {A} (mask : list bool) (l : list A) : list A :=
  map fst (filter snd (combine l mask)).

(** A frame: the row labels and the labelled columns, in column order. *)
Record DataFrame : Type := mkDF {
  index : list Timestamp;
  cols : list (string * Series)
}.

Definition columns (d : DataFrame) : list string := map fst (cols d).

Definition len (d : DataFrame) : nat := length (index d).

(** Labels are unique and every column is as long as the index. *)
Fixpoint uniqueb (l : list string) : bool :=
  match l with
  | [] => true
  | x :: t => negb (existsb (String.eqb x) t) && uniqueb t
  end.

Definition wf (d : DataFrame) : bool :=
  uniqueb (columns d)
  && forallb (fun c => (length (snd c) =? len d)%nat) (cols d).

(** [d.rename(columns={old: new})]. *)
Definition rename (old new : string) (d : DataFrame) : DataFrame :=
  mkDF (index d)
       (map (fun c => if String.eqb (fst c) old then (new, snd c) else c) (cols d)).

Definition ffill (d : DataFrame) : DataFrame :=
  mkDF (index d) (map (fun c => (fst c, ffill_series (snd c))) (cols d)).

(** [d.dropna()]: a row stays when none of its cells is NaN. *)
Definition row_complete (d : DataFrame) (i : nat) : bool :=
  forallb (fun c => notna (nth i (snd c) NaN)) (cols d).

Definition dropna (d : DataFrame) : DataFrame :=
  let mask := map (row_complete d) (seq 0 (len d)) in
  mkDF (keep mask (index d)) (map (fun c => (fst c, keep mask (snd c))) (cols d)).

(** The columns labelled [name]. *)
Definition lookup (name : string) (d : DataFrame) : list Series :=
  map snd (filter (fun c => String.eqb (fst c) name) (cols d)).

(** [d[name] = s]: overwrite the column when the label exists, append a
    new last column otherwise. *)
Definition setitem (name : string) (s : Series) (d : DataFrame) : DataFrame :=
  if existsb (String.eqb name) (columns d)
  then mkDF (index d)
            (map (fun c => if String.eqb (fst c) name then (name, s) else c) (cols d))
  else mkDF (index d) (cols d ++ [(name, s)]).

(** [d[names].values]: one row per index entry, one cell per selected
    column. *)
Definition values (names : list string) (d : DataFrame) : list (list float) :=
  map (fun i => map (fun s => nth i s NaN) (flat_map (fun n => lookup n d) names))
      (seq 0 (len d)).

(** [label.str.contains(r'(?i)close')] on an ASCII label: some substring
    equals the pattern once both are lower-cased. *)
Definition lower (c : ascii) : ascii :=
  let n := nat_of_ascii c in
  if ((65 <=? n) && (n <=? 90))%nat then ascii_of_nat (n + 32) else c.

Fixpoint lowercase (s : string) : string :=
  match s with
  | EmptyString => EmptyString
  | String c t => String (lower c) (lowercase t)
  end.

Fixpoint contains (pat s : string) : bool :=
  String.prefix pat s
  || match s with
     | EmptyString => false
     | String _ t => contains pat t
     end.

Definition contains_ci (pat s : string) : bool :=
  contains (lowercase pat) (lowercase s).

(** Reading a cell of a series or of a row of [values]. *)
Definition cell (s : Series) (i : nat) : float := nth i s NaN.

(** Plain real arithmetic on a window of finite values. *)
Definition Rsum (l : list R) : R := fold_right Rplus 0 l.

Definition Rmean (l : list R) : R := Rsum l / IZR (Z.of_nat (length l)).

Definition Rsample_std (l : list R) : R :=
  sqrt (Rsum (map (fun x => (x - Rmean l) * (x - Rmean l)) l)
        / (IZR (Z.of_nat (length l)) - 1)).

(** The number of leading missing cells of a column. *)
Fixpoint first_valid (s : Series) : nat :=
  match s with
  | [] => 0
  | x :: t => if isna x then S (first_valid t) else 0
  end.

(** The last cell of [s] at or before position [i] that is not missing,
    NaN when there is none. *)
Definition last_valid (s : Series) (i : nat) : float :=
  match filter notna (rev (firstn (S i) s)) with
  | x :: _ => x
  | [] => NaN
  end.

End pd.

(** ** Exceptions and the state of an object *)

Inductive exn : Type :=
| ValueError (msg : string)
| AttributeError (msg : string)
| KeyError (key : string)
| TypeError (msg : string)
| IndexError (msg : string)
| StopIteration.

Inductive result (A : Type) : Type :=
| Ok (a : A)
| Raise (e : exn).

Arguments Ok {A} a.
Arguments Raise {A} e.

(** A method body: it reads and updates the fields of [self] and either
    returns or raises; the fields keep the updates made before a raise. *)
Definition method (S A : Type) : Type := S -> result A * S.

Definition ret {S A} (a : A) : method S A := fun s => (Ok a, s).

Definition raise {S A} (e : exn) : method S A := fun s => (Raise e, s).

Definition bind {S A B} (m : method S A) (k : A -> method S B) : method S B :=
  fun s =>
    match m s with
    | (Ok a, s') => k a s'
    | (Raise e, s') => (Raise e, s')
    end.

Definition gets {S A} (f : S -> A) : method S A := fun s => (Ok (f s), s).

Definition modify {S} (f : S -> S) : method S unit := fun s => (Ok tt, f s).

Declare Scope method_scope.
Delimit Scope method_scope with method.
Notation "x <- m ;; k" := (bind m (fun x => k))
  (at level 61, m at next level, right associativity) : method_scope.
Notation "m ;; k" := (bind m (fun _ => k))
  (at level 61, right associativity) : method_scope.

Module MarketData.
Import pd.

(** The fields set by [__init__]; [raw_data] is the decoded JSON body,
    a mapping from timestamp text to field text. *)
Record t : Type := mk {
  api_key : string;
  interval : option string;
  symbol : option string;
  raw_data : option (list (string * list (string * string)));
  df : option DataFrame;
  timestamps : option (list Timestamp);
  processed_data : option (list (list float))
}.

Definition set_df (d : DataFrame) (self : t) : t :=
  mk (api_key self) (interval self) (symbol self) (raw_data self)
     (Some d) (timestamps self) (processed_data self).

Definition set_timestamps (ts : list Timestamp) (self : t) : t :=
  mk (api_key self) (interval self) (symbol self) (raw_data self)
     (df self) (Some ts) (processed_data self).

Definition set_processed_data (v : list (list float)) (self : t) : t :=
  mk (api_key self) (interval self) (symbol self) (raw_data self)
     (df self) (timestamps self) (Some v).

(** [self.df], a frame once [retrieve_data] has run. *)
Definition self_df : method t DataFrame :=
  fun self =>
    match df self with
    | Some d => (Ok d, self)
    | None => (Raise (AttributeError "'NoneType' object has no attribute 'columns'"), self)
    end.

(** [self.df[name]] used as a series: that needs exactly one column with
    the label.  With several, pandas hands back a frame, and storing the
    result computed from it into a single column fails. *)
Definition self_df_col (name target : string) : method t Series :=
  (d <- self_df ;;
   match lookup name d with
   | [s] => ret s
   | [] => raise (KeyError name)
   | _ => raise (ValueError
                   ("Cannot set a DataFrame with multiple columns to the single column "
                      ++ target))
   end)%method.

(** [self.df[name] = s]. *)
Definition self_df_set (name : string) (s : Series) : method t unit :=
  (d <- self_df ;; modify (set_df (setitem name s d)))%method.

Definition missing_close : exn :=
  ValueError "The 'close' column is not present in the dataframe.".

Definition rolling_window : nat := 10.
Definition period : nat := 14.
Definition std_multiplier : Z := 2.

Definition indicator_columns : list string :=
  ["rolling_ma"; "rsi"; "upper_band"; "lower_band"]%string.

(** The labels that contain "close", in column order. *)
Definition close_cols (d : DataFrame) : list string :=
  filter (contains_ci "close") (columns d).

Definition preprocess_data : method t unit :=
  (d <- self_df ;;
   match close_cols d with
   | [] => raise missing_close
   | close_col0 :: _ =>
       modify (set_df (rename close_col0 "close" d)) ;;
       d <- self_df ;; modify (set_df (ffill d)) ;;
       d <- self_df ;; modify (set_df (dropna d)) ;;
       (* rolling moving average *)
       close <- self_df_col "close" "rolling_ma" ;;
       self_df_set "rolling_ma" (rolling_mean rolling_window close) ;;
       (* relative strength index *)
       close <- self_df_col "close" "rsi" ;;
       let delta := diff close in
       let gain := where_ delta (gt delta (lit 0)) (lit 0) in
       let loss := neg (where_ delta (lt delta (lit 0)) (lit 0)) in
       let avg_gain := rolling_mean period gain in
       let avg_loss := rolling_mean period loss in
       let rs := div avg_gain avg_loss in
       let rsi := rsub (lit 100) (rdiv (lit 100) (radd (lit 1) rs)) in
       self_df_set "rsi" rsi ;;
       (* Bollinger bands *)
       close <- self_df_col "close" "upper_band" ;;
       let rolling_mean_ := rolling_mean rolling_window close in
       close <- self_df_col "close" "upper_band" ;;
       let rolling_std_ := rolling_std rolling_window close in
       self_df_set "upper_band" (add rolling_mean_ (mul rolling_std_ (lit std_multiplier))) ;;
       self_df_set "lower_band" (sub rolling_mean_ (mul rolling_std_ (lit std_multiplier))) ;;
       (* the array of indicator values and the row labels *)
       d <- self_df ;;
       modify (set_processed_data (values indicator_columns d)) ;;
       d <- self_df ;;
       modify (set_timestamps (index d))
   end)%method.

(** The local variables of the RSI and band computation, as functions of
    the close column they are computed from. *)
Definition delta (close : Series) : Series := diff close.
Definition gain (close : Series) : Series :=
  where_ (delta close) (gt (delta close) (lit 0)) (lit 0).
Definition loss (close : Series) : Series :=
  neg (where_ (delta close) (lt (delta close) (lit 0)) (lit 0)).
Definition avg_gain (close : Series) : Series := rolling_mean period (gain close).
Definition avg_loss (close : Series) : Series := rolling_mean period (loss close).
Definition rs (close : Series) : Series := div (avg_gain close) (avg_loss close).
Definition rsi (close : Series) : Series :=
  rsub (lit 100) (rdiv (lit 100) (radd (lit 1) (rs close))).
Definition upper_band (close : Series) : Series :=
  add (rolling_mean rolling_window close)
      (mul (rolling_std rolling_window close) (lit std_multiplier)).
Definition lower_band (close : Series) : Series :=
  sub (rolling_mean rolling_window close)
      (mul (rolling_std rolling_window close) (lit std_multiplier)).

(** One cell of [rsi] from the cells of [avg_gain] and [avg_loss] at the
    same position (lines 54-55). *)
Definition rsi_of (ag al : float) : float :=
  fsub (lit 100) (fdiv (lit 100) (fadd (lit 1) (fdiv ag al))).

(** What the renaming of line 35 makes of a label. *)
Definition renamed (close_col0 : string) (label : string) : string :=
  if String.eqb label close_col0 then "close"%string else label.

(** The frame lines 35-41 leave: the close column renamed, gaps filled
    forward, incomplete rows dropped. *)
Definition normalized (close_col0 : string) (d : DataFrame) : DataFrame :=
  dropna (ffill (rename close_col0 "close" d)).

(** The frame lines 45-63 leave, given the close column [close] of [d]. *)
Definition with_indicators (close : Series) (d : DataFrame) : DataFrame :=
  setitem "lower_band" (lower_band close)
    (setitem "upper_band" (upper_band close)
       (setitem "rsi" (rsi close)
          (setitem "rolling_ma" (rolling_mean rolling_window close) d))).

(** The gains and losses of a close column without gaps, as reals: 0 at
    position 0, where the difference is undefined and [where] puts 0. *)
Definition steps (xs : list R) : list R := zip_with Rminus (tl xs) xs.

Definition Rgain (xs : list R) : list R :=
  match xs with
  | [] => []
  | _ => 0 :: map (fun d => if Rltb 0 d then d else 0) (steps xs)
  end.

Definition Rloss (xs : list R) : list R :=
  match xs with
  | [] => []
  | _ => - 0 :: map (fun d => - (if Rltb d 0 then d else 0)) (steps xs)
  end.

(** The fields lines 45-67 leave, given the normalized frame [d] and its
    close column. *)
Definition finish (close : Series) (d : DataFrame) (self : t) : t :=
  let d' := with_indicators close d in
  set_timestamps (index d')
    (set_processed_data (values indicator_columns d') (set_df d' self)).

(** [processed_data[i, k]]. *)
Definition entry (rows : list (list float)) (i k : nat) : float :=
  nth k (nth i rows []) NaN.

(** Every cell is a finite number or missing. *)
Definition finite_or_nan (x : float) : bool :=
  match x with PInf | NInf => false | _ => true end.

Definition finite_cells (d : DataFrame) : bool :=
  forallb (fun c => forallb finite_or_nan (snd c)) (cols d).

(** No cell is missing. *)
Definition complete (d : DataFrame) : bool :=
  forallb (fun c => forallb notna (snd c)) (cols d).

(** The label has "close" as a substring once lower-cased. *)
Definition mentions_close (label : string) : Prop :=
  exists pre suf : string, lowercase label = (pre ++ "close" ++ suf)%string.

(** The frame [d] under other row labels. *)
Definition relabel (ts : list Timestamp) (d : DataFrame) : DataFrame :=
  mkDF ts (cols d).

(** An object holding the frame [d], as [retrieve_data] leaves it. *)
Definition loaded (d : DataFrame) : t :=
  mk "demo" (Some "1min"%string) (Some "IBM"%string) None (Some d) None None.

(** A frame of bars with the provider's labels, every price column
    equal to the given closes. *)
Definition bars (ts : list Timestamp) (closes : list R) : DataFrame :=
  mkDF ts [("1. open"%string, map Fin closes);
           ("2. high"%string, map Fin closes);
           ("3. low"%string, map Fin closes);
           ("4. close"%string, map Fin closes);
           ("5. volume"%string, map (fun _ => Fin 100) closes)].

(** Eleven bars closing at 1, 2, ..., 11. *)
Definition eleven : DataFrame :=
  bars [1; 2; 3; 4; 5; 6; 7; 8; 9; 10; 11]%Z [1; 2; 3; 4; 5; 6; 7; 8; 9; 10; 11].

(** Two rows without any close-like column. *)
Definition no_close : DataFrame :=
  mkDF [1; 2]%Z [("1. open"%string, [Fin 1; Fin 2]); ("5. volume"%string, [Fin 100; Fin 100])].

(** Three bars whose row labels fall and repeat. *)
Definition shuffled : DataFrame := bars [3; 1; 1]%Z [1; 2; 3].

(** Fifteen bars closing at 1, 2, ..., 15. *)
Definition fifteen : DataFrame :=
  bars [1; 2; 3; 4; 5; 6; 7; 8; 9; 10; 11; 12; 13; 14; 15]%Z
       [1; 2; 3; 4; 5; 6; 7; 8; 9; 10; 11; 12; 13; 14; 15].

(** Sixteen bars: a rise from 1 to 2, then fifteen closes at 2. *)
Definition stalled : DataFrame :=
  bars [1; 2; 3; 4; 5; 6; 7; 8; 9; 10; 11; 12; 13; 14; 15; 16]%Z
       [1; 2; 2; 2; 2; 2; 2; 2; 2; 2; 2; 2; 2; 2; 2; 2].

(** The fields as [__init__] sets them. *)
Definition init (key : string) : t := mk key None None None None None None.

(** The number of leading rows in which some column has not yet held a
    value. *)
Definition lead (d : DataFrame) : nat :=
  list_max (map (fun c => first_valid (snd c)) (cols d)).

(** Three rows with a gap at the head of the close column and one inside
    the volume column. *)
Definition gappy : DataFrame :=
  mkDF [1; 2; 3]%Z
       [("4. close"%string, [NaN; Fin 5; Fin 6]);
        ("5. volume"%string, [Fin 10; NaN; Fin 30])].

(** Two rows with an adjusted close ahead of a column labelled "close". *)
Definition two_closes : DataFrame :=
  mkDF [1; 2]%Z
       [("Adj Close"%string, [Fin 1; Fin 2]); ("close"%string, [Fin 3; Fin 4])].

End MarketData.

Module IntradayData.
Import pd.

Record t : Type := mk {
  api_key : string;
  base_url : string;
  data : option DataFrame;
  index : Z
}.

(** One row of the frame: its label and its cells by column. *)
Definition Row : Type := Timestamp * list (string * float).

Definition row_at (d : DataFrame) (i : nat) : Row :=
  (nth i (pd.index d) 0%Z, map (fun c => (fst c, nth i (snd c) NaN)) (cols d)).

(** [d.iloc[i]] for an integer: counted from the end when negative. *)
Definition iloc (d : DataFrame) (i : Z) : result Row :=
  let n := Z.of_nat (len d) in
  let j := (if i <? 0 then i + n else i)%Z in
  if ((0 <=? j) && (j <? n))%Z then Ok (row_at d (Z.to_nat j))
  else Raise (IndexError "single positional indexer is out-of-bounds").

(** [len(self.data)]. *)
Definition len_data : method t Z :=
  fun self =>
    match data self with
    | Some d => (Ok (Z.of_nat (len d)), self)
    | None => (Raise (TypeError "object of type 'NoneType' has no len()"), self)
    end.

Definition has_next : method t bool :=
  (n <- len_data ;; i <- gets index ;; ret (i <? n - 1)%Z)%method.

Definition next : method t Row :=
  (more <- has_next ;;
   if negb more then raise StopIteration
   else
     i <- gets index ;;
     row <- (fun self =>
               match data self with
               | Some d => (iloc d i, self)
               | None => (Raise (TypeError "'NoneType' object is not subscriptable"), self)
               end) ;;
     modify (fun self => mk (api_key self) (base_url self) (data self) (index self + 1)) ;;
     ret row)%method.

(** The outcomes of [k] successive calls of [next]. *)
Fixpoint calls (k : nat) (self : t) : list (result Row) :=
  match k with
  | O => []
  | S k' => let (r, self') := next self in r :: calls k' self'
  end.

(** The state a retrieval leaves: the frame stored, the cursor at 0. *)
Definition retrieved (key : string) (d : DataFrame) : t :=
  mk key "https://www.alphavantage.co/query" (Some d) 0.

(** The fields as [__init__] sets them. *)
Definition init (key : string) : t :=
  mk key "https://www.alphavantage.co/query" None 0.

(** The object after [k] successive calls of [next]. *)
Fixpoint after (k : nat) (self : t) : t :=
  match k with
  | O => self
  | S k' => after k' (snd (next self))
  end.

End IntradayData.

Module HistoricalData.
Import pd.

(** The subclass: the fields of [MarketData] and the two dates. *)
Record t : Type := mk {
  base : MarketData.t;
  start_date : option string;
  end_date : option string
}.

(** The fields as [__init__] sets them. *)
Definition init (key : string) : t := mk (MarketData.init key) None None.

Definition set_df (d : DataFrame) (self : t) : t :=
  mk (MarketData.set_df d (base self)) (start_date self) (end_date self).

Definition set_timestamps (ts : list Timestamp) (self : t) : t :=
  mk (MarketData.set_timestamps ts (base self)) (start_date self) (end_date self).

Definition set_processed_data (v : list (list float)) (self : t) : t :=
  mk (MarketData.set_processed_data v (base self)) (start_date self) (end_date self).

Definition self_df : method t DataFrame :=
  fun self =>
    match MarketData.df (base self) with
    | Some d => (Ok d, self)
    | None => (Raise (AttributeError "'NoneType' object has no attribute 'columns'"), self)
    end.

Definition self_df_col (name target : string) : method t Series :=
  (d <- self_df ;;
   match lookup name d with
   | [s] => ret s
   | [] => raise (KeyError name)
   | _ => raise (ValueError
                   ("Cannot set a DataFrame with multiple columns to the single column "
                      ++ target))
   end)%method.

Definition self_df_set (name : string) (s : Series) : method t unit :=
  (d <- self_df ;; modify (set_df (setitem name s d)))%method.

(** Lines 157-196, the second copy of the method. *)
Definition preprocess_data : method t unit :=
  (d <- self_df ;;
   match filter (contains_ci "close") (columns d) with
   | [] => raise (ValueError "The 'close' column is not present in the dataframe.")
   | close_col0 :: _ =>
       modify (set_df (rename close_col0 "close" d)) ;;
       d <- self_df ;; modify (set_df (ffill d)) ;;
       d <- self_df ;; modify (set_df (dropna d)) ;;
       (* rolling moving average *)
       let rolling_window := 10%nat in
       close <- self_df_col "close" "rolling_ma" ;;
       self_df_set "rolling_ma" (rolling_mean rolling_window close) ;;
       (* relative strength index *)
       let period := 14%nat in
       close <- self_df_col "close" "rsi" ;;
       let delta := diff close in
       let gain := where_ delta (gt delta (lit 0)) (lit 0) in
       let loss := neg (where_ delta (lt delta (lit 0)) (lit 0)) in
       let avg_gain := rolling_mean period gain in
       let avg_loss := rolling_mean period loss in
       let rs := div avg_gain avg_loss in
       let rsi := rsub (lit 100) (rdiv (lit 100) (radd (lit 1) rs)) in
       self_df_set "rsi" rsi ;;
       (* Bollinger bands *)
       let std_multiplier := 2%Z in
       close <- self_df_col "close" "upper_band" ;;
       let rolling_mean_ := rolling_mean rolling_window close in
       close <- self_df_col "close" "upper_band" ;;
       let rolling_std_ := rolling_std rolling_window close in
       self_df_set "upper_band" (add rolling_mean_ (mul rolling_std_ (lit std_multiplier))) ;;
       self_df_set "lower_band" (sub rolling_mean_ (mul rolling_std_ (lit std_multiplier))) ;;
       (* the array of indicator values and the row labels *)
       d <- self_df ;;
       modify (set_processed_data
                 (values ["rolling_ma"; "rsi"; "upper_band"; "lower_band"]%string d)) ;;
       d <- self_df ;;
       modify (set_timestamps (index d))
   end)%method.

End HistoricalData.

(** * Properties *)

(** ** Arithmetic of the cells *)

Lemma Rltb_true (x y : R) : x < y -> Rltb x y = true.
Proof. intros H. unfold Rltb. destruct (Rlt_dec x y); [reflexivity | contradiction]. Qed.

Lemma Rltb_false (x y : R) : ~ x < y -> Rltb x y = false.
Proof. intros H. unfold Rltb. destruct (Rlt_dec x y); [contradiction | reflexivity]. Qed.

Lemma Rltb_spec (x y : R) : Rltb x y = true <-> x < y.
Proof.
  unfold Rltb. destruct (Rlt_dec x y); split; intros; try easy.
Qed.

Lemma Reqb_true (x y : R) : x = y -> Reqb x y = true.
Proof. intros H. unfold Reqb. destruct (Req_dec_T x y); [reflexivity | contradiction]. Qed.

Lemma Reqb_false (x y : R) : x <> y -> Reqb x y = false.
Proof. intros H. unfold Reqb. destruct (Req_dec_T x y); [contradiction | reflexivity]. Qed.

Section Cells.
Import pd.

Lemma fsum_Fin (l : list R) : fsum (map Fin l) = Fin (Rsum l).
Proof.
  induction l as [|x l IH]; [reflexivity|].
  change (fadd (Fin x) (fsum (map Fin l)) = Fin (x + Rsum l)).
  rewrite IH. reflexivity.
Qed.

Lemma filter_notna_Fin (l : list R) : filter notna (map Fin l) = map Fin l.
Proof. induction l as [|x l IH]; simpl; [reflexivity | now rewrite IH]. Qed.

Lemma count_pos (A : Type) (l : list A) : l <> [] -> 0 < IZR (Z.of_nat (length l)).
Proof.
  intros H. apply IZR_lt. destruct l; [contradiction | simpl; lia].
Qed.

Lemma mean_Fin (l : list R) : l <> [] -> mean (map Fin l) = Fin (Rmean l).
Proof.
  intros H. unfold mean, count. rewrite fsum_Fin, length_map. simpl.
  pose proof (count_pos _ l H) as Hp.
  rewrite Reqb_false by lra. reflexivity.
Qed.

Lemma Rsum_nonneg (l : list R) : Forall (fun x => 0 <= x) l -> 0 <= Rsum l.
Proof.
  induction 1 as [|x l Hx _ IH]; simpl; lra.
Qed.

Lemma Rsum_zero (l : list R) :
  Forall (fun x => 0 <= x) l -> Rsum l = 0 -> Forall (fun x => x = 0) l.
Proof.
  induction 1 as [|x l Hx Hl IH]; simpl; intros Hs; constructor.
  - pose proof (Rsum_nonneg l Hl). lra.
  - apply IH. pose proof (Rsum_nonneg l Hl). lra.
Qed.

Lemma Rsum_all_zero (l : list R) : Forall (fun x => x = 0) l -> Rsum l = 0.
Proof. induction 1 as [|x l Hx _ IH]; simpl; lra. Qed.

Lemma std_Fin (l : list R) :
  (2 <= length l)%nat -> std 1 (map Fin l) = Fin (Rsample_std l).
Proof.
  intros Hl. unfold std, var.
  assert (Hne : l <> []) by (destruct l; [simpl in Hl; lia | discriminate]).
  rewrite mean_Fin by exact Hne. rewrite map_map.
  replace (map (fun x => fmul (fsub (Fin x) (Fin (Rmean l))) (fsub (Fin x) (Fin (Rmean l)))) l)
    with (map Fin (map (fun x => (x - Rmean l) * (x - Rmean l)) l))
    by (rewrite map_map; reflexivity).
  rewrite fsum_Fin, length_map. simpl fdiv.
  assert (Hd : 1 <= IZR (Z.of_nat (length l) - 1)) by (apply IZR_le; lia).
  rewrite Reqb_false by lra. simpl.
  assert (Hs : 0 <= Rsum (map (fun x => (x - Rmean l) * (x - Rmean l)) l)).
  { apply Rsum_nonneg. apply Forall_map, Forall_forall. intros x _. cbv beta.
    generalize (x - Rmean l). intros y. nra. }
  rewrite Rltb_false.
  - unfold Rsample_std. rewrite minus_IZR. reflexivity.
  - intros Hlt. apply Rlt_not_le in Hlt. apply Hlt.
    apply Rmult_le_pos; [exact Hs|]. left. apply Rinv_0_lt_compat. lra.
Qed.

End Cells.

(** ** Series *)

Section SeriesFacts.
Import pd.

Lemma nth_map_seq {A} (f : nat -> A) (n i : nat) (d : A) :
  (i < n)%nat -> nth i (map f (seq 0 n)) d = f i.
Proof.
  intros Hi. rewrite (nth_indep _ d (f 0%nat)) by (rewrite length_map, length_seq; exact Hi).
  rewrite map_nth, seq_nth by exact Hi. reflexivity.
Qed.

Lemma nth_map_in {A B} (f : A -> B) (l : list A) (i : nat) (d : B) (d' : A) :
  (i < length l)%nat -> nth i (map f l) d = f (nth i l d').
Proof.
  intros Hi. rewrite (nth_indep _ d (f d')) by (rewrite length_map; exact Hi).
  apply map_nth.
Qed.

Lemma length_zip_with {A B C} (f : A -> B -> C) l l' :
  length (zip_with f l l') = Nat.min (length l) (length l').
Proof. unfold zip_with. rewrite length_map, length_combine. reflexivity. Qed.

Lemma nth_zip_with {A B C} (f : A -> B -> C) l l' i da db dc :
  (i < length l)%nat -> (i < length l')%nat ->
  nth i (zip_with f l l') dc = f (nth i l da) (nth i l' db).
Proof.
  revert l' i. induction l as [|a l IH]; intros [|b l'] i Hl Hl'; simpl in *; try lia.
  destruct i as [|i]; [reflexivity|]. apply IH; lia.
Qed.

Lemma length_rolling w agg s : length (rolling w agg s) = length s.
Proof. unfold rolling. rewrite length_map, length_seq. reflexivity. Qed.

Lemma window_map {A B} (f : A -> B) w i (l : list A) :
  window w i (map f l) = map f (window w i l).
Proof. unfold window. rewrite skipn_map, firstn_map. reflexivity. Qed.

Lemma length_window {A} w i (l : list A) :
  (i < length l)%nat -> length (window w i l) = Nat.min (S i) w.
Proof.
  intros Hi. unfold window. rewrite length_firstn, length_skipn. lia.
Qed.

Lemma window_full {A} w i (l : list A) :
  (w - 1 <= i)%nat -> window w i l = firstn w (skipn (i - (w - 1)) l).
Proof.
  intros Hi. unfold window. destruct w as [|w].
  - replace (S i - (S i - 0))%nat with 0%nat by lia. reflexivity.
  - f_equal; [lia | f_equal; lia].
Qed.

(** A member of the trailing window is an entry of the series at one of
    the positions the window covers, and conversely. *)
Lemma in_window {A} w i (l : list A) (d x : A) :
  (i < length l)%nat ->
  In x (window w i l) <->
  exists j, (S i - w <= j <= i)%nat /\ x = nth j l d.
Proof.
  intros Hi. unfold window. set (a := (S i - w)%nat). split.
  - intros Hin. apply (In_nth _ _ d) in Hin. destruct Hin as (k & Hk & Hx).
    rewrite length_firstn, length_skipn in Hk.
    rewrite nth_firstn in Hx. destruct (Nat.ltb_spec k (S i - a)); [|lia].
    rewrite nth_skipn in Hx. exists (a + k)%nat. split; [lia | now symmetry].
  - intros (j & Hj & ->).
    replace j with (a + (j - a))%nat by lia. rewrite <- nth_skipn.
    assert (Hk : (j - a < S i - a)%nat) by lia.
    rewrite <- (firstn_skipn (S i - a) (skipn a l)) at 1.
    rewrite app_nth1 by (rewrite length_firstn, length_skipn; lia).
    apply nth_In. rewrite length_firstn, length_skipn. lia.
Qed.

(** Rolling aggregate of a series without gaps. *)
Lemma cell_rolling_Fin w agg (l : list R) i :
  (i < length l)%nat ->
  cell (rolling w agg (map Fin l)) i =
  if (S i <? w)%nat then NaN else agg (map Fin (window w i l)).
Proof.
  intros Hi. unfold cell, rolling. rewrite length_map.
  rewrite nth_map_seq by exact Hi. cbv zeta.
  rewrite window_map, filter_notna_Fin, length_map, length_window by exact Hi.
  destruct (Nat.ltb_spec (S i) w) as [Hlt|Hge].
  - destruct (Nat.ltb_spec (Nat.min (S i) w) w); [reflexivity | lia].
  - destruct (Nat.ltb_spec (Nat.min (S i) w) w); [lia | reflexivity].
Qed.

Lemma cell_rolling_mean_Fin w (l : list R) i :
  (0 < w)%nat -> (i < length l)%nat ->
  cell (rolling_mean w (map Fin l)) i =
  if (S i <? w)%nat then NaN else Fin (Rmean (window w i l)).
Proof.
  intros Hw Hi. unfold rolling_mean. rewrite cell_rolling_Fin by exact Hi.
  destruct (Nat.ltb_spec (S i) w) as [Hlt|Hge]; [reflexivity|].
  apply mean_Fin. intros Hnil.
  pose proof (length_window w i l Hi) as Hlen. rewrite Hnil in Hlen. cbn [length] in Hlen. lia.
Qed.

Lemma cell_rolling_std_Fin w (l : list R) i :
  (2 <= w)%nat -> (i < length l)%nat ->
  cell (rolling_std w (map Fin l)) i =
  if (S i <? w)%nat then NaN else Fin (Rsample_std (window w i l)).
Proof.
  intros Hw Hi. unfold rolling_std. rewrite cell_rolling_Fin by exact Hi.
  destruct (Nat.ltb_spec (S i) w) as [Hlt|Hge]; [reflexivity|].
  apply std_Fin. rewrite length_window by exact Hi. lia.
Qed.

End SeriesFacts.

(** ** Gains and losses of a close column without gaps *)

Section GainLoss.
Import pd MarketData.

Lemma zip_with_fsub_Fin (l l' : list R) :
  zip_with fsub (map Fin l) (map Fin l') = map Fin (zip_with Rminus l l').
Proof.
  unfold zip_with. revert l'.
  induction l as [|a l IH]; intros [|b l']; try reflexivity.
  cbn [map combine fst snd]. rewrite IH. reflexivity.
Qed.

Lemma diff_Fin (x : R) (xs : list R) :
  diff (map Fin (x :: xs)) = NaN :: map Fin (steps (x :: xs)).
Proof.
  unfold diff, steps. cbn [map tl]. f_equal.
  apply (zip_with_fsub_Fin xs (x :: xs)).
Qed.

Lemma gain_Fin (xs : list R) : gain (map Fin xs) = map Fin (Rgain xs).
Proof.
  destruct xs as [|x xs]; [reflexivity|].
  unfold gain, delta, Rgain. rewrite diff_Fin.
  unfold where_, gt, zip_with, lit. cbn [map combine fst snd fgtb]. f_equal.
  induction (steps (x :: xs)) as [|d l IH]; [reflexivity|].
  cbn [map combine fst snd fgtb]. rewrite IH. f_equal.
  destruct (Rltb 0 d); reflexivity.
Qed.

Lemma loss_Fin (xs : list R) : loss (map Fin xs) = map Fin (Rloss xs).
Proof.
  destruct xs as [|x xs]; [reflexivity|].
  unfold loss, delta, Rloss. rewrite diff_Fin.
  unfold neg, where_, lt, zip_with, lit, fltb. cbn [map combine fst snd fgtb fneg]. f_equal.
  induction (steps (x :: xs)) as [|d l IH]; [reflexivity|].
  cbn [map combine fst snd fltb fgtb fneg]. rewrite IH. f_equal.
  destruct (Rltb d 0); reflexivity.
Qed.

Lemma length_steps (xs : list R) : length (steps xs) = (length xs - 1)%nat.
Proof.
  unfold steps. rewrite length_zip_with. destruct xs; simpl; lia.
Qed.

Lemma length_Rgain (xs : list R) : length (Rgain xs) = length xs.
Proof.
  destruct xs as [|x xs]; [reflexivity|].
  unfold Rgain. cbn [length]. rewrite length_map, length_steps. simpl. lia.
Qed.

Lemma length_Rloss (xs : list R) : length (Rloss xs) = length xs.
Proof.
  destruct xs as [|x xs]; [reflexivity|].
  unfold Rloss. cbn [length]. rewrite length_map, length_steps. simpl. lia.
Qed.

Lemma nth_steps (xs : list R) (j : nat) :
  (S j < length xs)%nat -> nth j (steps xs) 0 = nth (S j) xs 0 - nth j xs 0.
Proof.
  intros Hj. unfold steps.
  rewrite (nth_zip_with Rminus (tl xs) xs j 0 0 0).
  - destruct xs; [simpl in Hj; lia | reflexivity].
  - destruct xs; simpl in *; lia.
  - lia.
Qed.

Lemma nth_Rgain (xs : list R) (j : nat) :
  (S j < length xs)%nat ->
  nth (S j) (Rgain xs) 0 =
  if Rltb 0 (nth (S j) xs 0 - nth j xs 0) then nth (S j) xs 0 - nth j xs 0 else 0.
Proof.
  intros Hj. destruct xs as [|x xs]; [simpl in Hj; lia|].
  unfold Rgain. cbn [nth].
  rewrite (nth_map_in _ _ _ _ 0) by (rewrite length_steps; simpl in *; lia).
  rewrite nth_steps by exact Hj. reflexivity.
Qed.

Lemma nth_Rloss (xs : list R) (j : nat) :
  (S j < length xs)%nat ->
  nth (S j) (Rloss xs) 0 =
  - (if Rltb (nth (S j) xs 0 - nth j xs 0) 0 then nth (S j) xs 0 - nth j xs 0 else 0).
Proof.
  intros Hj. destruct xs as [|x xs]; [simpl in Hj; lia|].
  unfold Rloss. cbn [nth].
  rewrite (nth_map_in _ _ _ _ 0) by (rewrite length_steps; simpl in *; lia).
  rewrite nth_steps by exact Hj. reflexivity.
Qed.

Lemma Rgain_nonneg (xs : list R) : Forall (fun g => 0 <= g) (Rgain xs).
Proof.
  destruct xs as [|x xs]; [constructor|]. unfold Rgain.
  constructor; [lra|]. apply Forall_map, Forall_forall. intros d _.
  cbv beta. destruct (Rltb 0 d) eqn:E; [apply Rltb_spec in E|]; lra.
Qed.

Lemma Rloss_nonneg (xs : list R) : Forall (fun g => 0 <= g) (Rloss xs).
Proof.
  destruct xs as [|x xs]; [constructor|]. unfold Rloss.
  constructor; [lra|]. apply Forall_map, Forall_forall. intros d _.
  cbv beta. destruct (Rltb d 0) eqn:E; [apply Rltb_spec in E|]; lra.
Qed.

End GainLoss.

(** ** The RSI cell *)

Section Rsi.
Import pd MarketData.

Lemma length_diff (s : Series) : length (diff s) = length s.
Proof.
  destruct s as [|x t]; [reflexivity|]. unfold diff. cbn [length].
  rewrite length_zip_with. cbn [length]. lia.
Qed.

Lemma length_gain (close : Series) : length (gain close) = length close.
Proof.
  unfold gain, where_, gt, delta. rewrite length_zip_with, length_map, length_diff. lia.
Qed.

Lemma length_loss (close : Series) : length (loss close) = length close.
Proof.
  unfold loss, neg, where_, lt, delta.
  rewrite length_map, length_zip_with, length_map, length_diff. lia.
Qed.

Lemma length_avg_gain (close : Series) : length (avg_gain close) = length close.
Proof. unfold avg_gain, rolling_mean. rewrite length_rolling. apply length_gain. Qed.

Lemma length_avg_loss (close : Series) : length (avg_loss close) = length close.
Proof. unfold avg_loss, rolling_mean. rewrite length_rolling. apply length_loss. Qed.

Lemma length_rsi (close : Series) : length (rsi close) = length close.
Proof.
  unfold rsi, rsub, rdiv, radd, rs, div. rewrite !length_map, length_zip_with.
  rewrite length_avg_gain, length_avg_loss. lia.
Qed.

(** Lines 54-55 act cell by cell. *)
Lemma cell_rsi (close : Series) (i : nat) :
  (i < length close)%nat ->
  cell (rsi close) i = rsi_of (cell (avg_gain close) i) (cell (avg_loss close) i).
Proof.
  intros Hi. unfold cell, rsi, rsub, rdiv, radd, rs, div.
  rewrite !map_map.
  rewrite (nth_map_in _ _ _ _ NaN)
    by (rewrite length_zip_with, length_avg_gain, length_avg_loss; lia).
  rewrite (nth_zip_with fdiv _ _ i NaN NaN NaN)
    by (rewrite ?length_avg_gain, ?length_avg_loss; lia).
  reflexivity.
Qed.

Lemma rsi_of_nan_l (al : float) : rsi_of NaN al = NaN.
Proof. reflexivity. Qed.

Lemma rsi_of_nan_r (ag : float) : rsi_of ag NaN = NaN.
Proof. destruct ag; reflexivity. Qed.

Lemma rsi_of_no_loss (g : R) : 0 < g -> rsi_of (Fin g) (Fin 0) = Fin 100.
Proof.
  intros Hg. unfold rsi_of, lit. cbn [fdiv].
  rewrite Reqb_true by reflexivity. cbn [fsign].
  rewrite Rltb_true by exact Hg. cbn. f_equal. lra.
Qed.

(** [avg_gain > 0] as the floats compare, the infinity included. *)
Lemma rsi_of_no_loss_gt (ag : float) :
  fgtb ag (lit 0) = true -> rsi_of ag (Fin 0) = Fin 100.
Proof.
  destruct ag as [| | |g]; cbn [fgtb lit]; try discriminate.
  - intros _. unfold rsi_of, lit. cbn [fdiv].
    rewrite Rltb_false by lra. cbn. f_equal. lra.
  - intros H. apply rsi_of_no_loss. now apply Rltb_spec.
Qed.

Lemma rsi_of_flat : rsi_of (Fin 0) (Fin 0) = NaN.
Proof.
  unfold rsi_of, lit. cbn [fdiv].
  rewrite Reqb_true by reflexivity. cbn [fsign].
  rewrite !Rltb_false by lra. reflexivity.
Qed.

Lemma rsi_of_ratio (g l : R) :
  0 <= g -> 0 < l ->
  rsi_of (Fin g) (Fin l) = Fin (100 - 100 / (1 + g / l)).
Proof.
  intros Hg Hl. unfold rsi_of, lit. cbn [fdiv].
  rewrite Reqb_false by lra. cbn [fadd fdiv].
  assert (Hq : 0 <= g / l) by (apply Rmult_le_pos; [lra | left; apply Rinv_0_lt_compat; lra]).
  rewrite Reqb_false by lra. reflexivity.
Qed.

Lemma rsi_ratio_bounds (g l : R) :
  0 <= g -> 0 < l -> 0 <= 100 - 100 / (1 + g / l) <= 100.
Proof.
  intros Hg Hl.
  assert (Hq : 0 <= g / l) by (apply Rmult_le_pos; [lra | left; apply Rinv_0_lt_compat; lra]).
  assert (Hp : 0 < / (1 + g / l)) by (apply Rinv_0_lt_compat; lra).
  assert (Hi : / (1 + g / l) <= 1).
  { rewrite <- Rinv_1. apply Rinv_le_contravar; lra. }
  unfold Rdiv at 1 3. lra.
Qed.

(** For non-negative finite averages the cell is NaN exactly when both
    are zero, and a number between 0 and 100 otherwise. *)
Lemma rsi_of_cases (g l : R) :
  0 <= g -> 0 <= l ->
  (g = 0 /\ l = 0 /\ rsi_of (Fin g) (Fin l) = NaN) \/
  (~ (g = 0 /\ l = 0) /\ exists r, rsi_of (Fin g) (Fin l) = Fin r /\ 0 <= r <= 100).
Proof.
  intros Hg Hl.
  destruct (Req_dec_T l 0) as [El|Nl].
  - subst l. destruct (Req_dec_T g 0) as [Eg|Ng].
    + subst g. left. repeat split. apply rsi_of_flat.
    + right. split; [tauto|]. exists 100. split; [apply rsi_of_no_loss; lra | lra].
  - right. split; [tauto|]. exists (100 - 100 / (1 + g / l)). split.
    + apply rsi_of_ratio; lra.
    + apply rsi_ratio_bounds; lra.
Qed.

End Rsi.

(** ** Frames *)

Section Frames.
Import pd.

Lemma lookup_setitem_ne (n n' : string) (s : Series) (d : DataFrame) :
  n <> n' -> lookup n (setitem n' s d) = lookup n d.
Proof.
  intros Hne. unfold lookup, setitem.
  assert (Hf : String.eqb n' n = false) by (apply String.eqb_neq; congruence).
  destruct (existsb (String.eqb n') (columns d)); cbn [cols].
  - f_equal. induction (cols d) as [|[k v] l IH]; [reflexivity|].
    cbn [map filter fst snd].
    destruct (String.eqb_spec k n') as [->|Hk]; cbn [fst].
    + rewrite Hf. exact IH.
    + destruct (String.eqb k n); [f_equal|]; exact IH.
  - rewrite filter_app, map_app. cbn [filter fst]. rewrite Hf.
    cbn [map]. apply app_nil_r.
Qed.

Lemma uniqueb_not_in (x : string) (l : list string) :
  existsb (String.eqb x) l = false <-> ~ In x l.
Proof.
  split.
  - intros H Hin. assert (existsb (String.eqb x) l = true); [|congruence].
    apply existsb_exists. exists x. split; [exact Hin | apply String.eqb_refl].
  - intros H. destruct (existsb (String.eqb x) l) eqn:E; [|reflexivity].
    apply existsb_exists in E. destruct E as (y & Hy & Exy).
    apply String.eqb_eq in Exy. subst y. contradiction.
Qed.

Lemma uniqueb_NoDup (l : list string) : uniqueb l = true <-> NoDup l.
Proof.
  induction l as [|x l IH]; cbn [uniqueb].
  - split; [constructor | reflexivity].
  - rewrite andb_true_iff, negb_true_iff, uniqueb_not_in, IH. split.
    + intros [H1 H2]. now constructor.
    + intros H. inversion H; subst. now split.
Qed.

Lemma lookup_absent (n : string) (d : DataFrame) :
  ~ In n (columns d) -> lookup n d = [].
Proof.
  unfold lookup, columns. induction (cols d) as [|[k v] l IH]; intros Hn; [reflexivity|].
  cbn [map filter fst] in *. destruct (String.eqb_spec k n) as [->|Hk].
  - exfalso. apply Hn. now left.
  - apply IH. intros Hin. apply Hn. now right.
Qed.

Lemma lookup_setitem_eq (n : string) (s : Series) (d : DataFrame) :
  NoDup (columns d) -> lookup n (setitem n s d) = [s].
Proof.
  intros Hu. unfold setitem.
  destruct (existsb (String.eqb n) (columns d)) eqn:E.
  - apply existsb_exists in E. destruct E as (y & Hy & Exy).
    apply String.eqb_eq in Exy. subst y.
    unfold lookup, columns in *. cbn [cols].
    induction (cols d) as [|[k v] l IH]; [contradiction|].
    cbn [map filter fst snd] in *. inversion Hu as [|? ? Hnk Hl]; subst.
    destruct (String.eqb_spec k n) as [->|Hk]; cbn [fst].
    + rewrite String.eqb_refl. cbn [map snd]. f_equal.
      clear IH Hy Hu Hl. induction l as [|[k' v'] l IH]; [reflexivity|].
      cbn [map filter fst snd] in *.
      destruct (String.eqb_spec k' n) as [->|Hk'].
      * exfalso. apply Hnk. now left.
      * cbn [fst]. apply String.eqb_neq in Hk'. rewrite Hk'. apply IH.
        intros Hin. apply Hnk. now right.
    + apply String.eqb_neq in Hk. rewrite Hk. apply IH; [exact Hl|].
      destruct Hy as [Hy|Hy]; [|exact Hy]. apply String.eqb_neq in Hk. congruence.
  - apply uniqueb_not_in in E. unfold lookup. cbn [cols].
    rewrite filter_app, map_app. fold (lookup n d). rewrite lookup_absent by exact E.
    cbn [filter fst]. rewrite String.eqb_refl. reflexivity.
Qed.

Lemma columns_setitem (n : string) (s : Series) (d : DataFrame) :
  columns (setitem n s d) =
  if existsb (String.eqb n) (columns d) then columns d else columns d ++ [n].
Proof.
  unfold setitem, columns.
  destruct (existsb (String.eqb n) (map fst (cols d))) eqn:E; cbn [cols].
  - rewrite map_map. apply map_ext. intros [k v]. cbn [fst].
    destruct (String.eqb_spec k n) as [->|Hk]; reflexivity.
  - rewrite map_app. reflexivity.
Qed.

Lemma NoDup_setitem (n : string) (s : Series) (d : DataFrame) :
  NoDup (columns d) -> NoDup (columns (setitem n s d)).
Proof.
  intros Hu. rewrite columns_setitem.
  destruct (existsb (String.eqb n) (columns d)) eqn:E; [exact Hu|].
  apply uniqueb_not_in in E. apply NoDup_app; [exact Hu | repeat constructor; intros [] | ].
  intros x Hx [<-|[]]. exact (E Hx).
Qed.

Lemma index_setitem (n : string) (s : Series) (d : DataFrame) :
  index (setitem n s d) = index d.
Proof. unfold setitem. destruct (existsb _ _); reflexivity. Qed.

End Frames.

(** ** The run of [preprocess_data] *)

Section Run.
Import pd MarketData.

Ltac names_differ := intros Heq; discriminate Heq.

Lemma lookup_close_with_indicators (close : Series) (d : DataFrame) :
  lookup "close" (with_indicators close d) = lookup "close" d.
Proof.
  unfold with_indicators. rewrite !lookup_setitem_ne by names_differ. reflexivity.
Qed.

Lemma NoDup_with_indicators (close : Series) (d : DataFrame) :
  NoDup (columns d) -> NoDup (columns (with_indicators close d)).
Proof. intros H. unfold with_indicators. now repeat apply NoDup_setitem. Qed.

Lemma index_with_indicators (close : Series) (d : DataFrame) :
  index (with_indicators close d) = index d.
Proof. unfold with_indicators. now rewrite !index_setitem. Qed.

Lemma values_with_indicators (close : Series) (d : DataFrame) :
  NoDup (columns d) ->
  values indicator_columns (with_indicators close d) =
  map (fun i => [cell (rolling_mean rolling_window close) i; cell (rsi close) i;
                 cell (upper_band close) i; cell (lower_band close) i])
      (seq 0 (len d)).
Proof.
  intros Hu. unfold values, len. rewrite index_with_indicators.
  apply map_ext. intros i. unfold indicator_columns. cbn [flat_map].
  unfold with_indicators.
  rewrite (lookup_setitem_eq "lower_band") by now repeat apply NoDup_setitem.
  rewrite !(lookup_setitem_ne "upper_band" "lower_band") by names_differ.
  rewrite (lookup_setitem_eq "upper_band") by now repeat apply NoDup_setitem.
  rewrite !(lookup_setitem_ne "rsi" "lower_band") by names_differ.
  rewrite !(lookup_setitem_ne "rsi" "upper_band") by names_differ.
  rewrite (lookup_setitem_eq "rsi") by now repeat apply NoDup_setitem.
  rewrite !(lookup_setitem_ne "rolling_ma" "lower_band") by names_differ.
  rewrite !(lookup_setitem_ne "rolling_ma" "upper_band") by names_differ.
  rewrite !(lookup_setitem_ne "rolling_ma" "rsi") by names_differ.
  rewrite (lookup_setitem_eq "rolling_ma") by exact Hu.
  reflexivity.
Qed.

(** The three ways a call ends once the frame is there: no close-like
    label; a normalized frame where the label "close" does not name
    exactly one column; or all indicators stored. *)
Lemma run_eq (self : t) (d : DataFrame) :
  df self = Some d ->
  preprocess_data self =
  match close_cols d with
  | [] => (Raise missing_close, self)
  | c :: _ =>
      let d' := normalized c d in
      match lookup "close" d' with
      | [close] => (Ok tt, finish close d' self)
      | [] => (Raise (KeyError "close"), set_df d' self)
      | _ :: _ :: _ =>
          (Raise (ValueError
                    "Cannot set a DataFrame with multiple columns to the single column rolling_ma"),
           set_df d' self)
      end
  end.
Proof.
  intros Hdf. unfold preprocess_data.
  cbv [bind self_df]. rewrite Hdf.
  destruct (close_cols d) as [|c rest]; [reflexivity|].
  cbv [bind modify self_df self_df_col self_df_set ret raise df set_df].
  fold (normalized c d).
  destruct (lookup "close" (normalized c d)) as [|close [|close' more]] eqn:Hl;
    [reflexivity| |reflexivity].
  repeat (rewrite !lookup_setitem_ne by names_differ; rewrite Hl).
  reflexivity.
Qed.

End Run.

(** ** The normalized frame *)

Section Normalized.
Import pd MarketData.

Lemma columns_normalized (c : string) (d : DataFrame) :
  columns (normalized c d) = map (renamed c) (columns d).
Proof.
  unfold normalized, dropna, ffill, rename, columns. cbn [cols].
  rewrite !map_map. apply map_ext. intros [k v]. cbn [fst snd].
  unfold renamed. destruct (String.eqb k c); reflexivity.
Qed.

Lemma length_lookup (n : string) (d : DataFrame) :
  length (lookup n d) = length (filter (fun x => String.eqb x n) (columns d)).
Proof.
  unfold lookup, columns. rewrite length_map.
  induction (cols d) as [|[k v] l IH]; [reflexivity|].
  cbn [map filter fst]. destruct (String.eqb k n); cbn [length]; now rewrite IH.
Qed.

Lemma count_in (n : string) (l : list string) :
  In n l -> (1 <= length (filter (fun x => String.eqb x n) l))%nat.
Proof.
  induction l as [|x l IH]; intros Hin; [contradiction|].
  cbn [filter]. destruct (String.eqb_spec x n) as [->|Hx]; cbn [length]; [lia|].
  apply IH. destruct Hin as [Hin|Hin]; [contradiction | exact Hin].
Qed.

Lemma NoDup_renamed (c : string) (l : list string) :
  NoDup l ->
  (length (filter (fun x => String.eqb x "close") (map (renamed c) l)) <= 1)%nat ->
  NoDup (map (renamed c) l).
Proof.
  induction 1 as [|x l Hx Hl IH]; intros Hc; [constructor|].
  cbn [map filter] in *.
  assert (Ht : (length (filter (fun x => String.eqb x "close") (map (renamed c) l)) <= 1)%nat).
  { destruct (String.eqb (renamed c x) "close"); cbn [length] in Hc; lia. }
  constructor; [|exact (IH Ht)].
  intros Hin.
  assert (Hone : renamed c x = "close"%string -> False).
  { intros E. rewrite E in Hin, Hc. apply count_in in Hin.
    rewrite String.eqb_refl in Hc. cbn [length] in Hc. lia. }
  apply in_map_iff in Hin. destruct Hin as (y & Ey & Hy).
  unfold renamed in Ey, Hone.
  destruct (String.eqb_spec x c) as [Ex|Nx]; [now apply Hone|].
  destruct (String.eqb_spec y c) as [Eyc|Ny].
  - apply Hone. now symmetry.
  - rewrite Ey in Hy. contradiction.
Qed.

Lemma wf_spec (d : DataFrame) :
  wf d = true <->
  NoDup (columns d) /\ Forall (fun c => length (snd c) = len d) (cols d).
Proof.
  unfold wf. rewrite andb_true_iff, uniqueb_NoDup, forallb_forall, Forall_forall.
  split; intros [H1 H2]; split; try exact H1; intros c Hc.
  - apply Nat.eqb_eq. now apply H2.
  - apply Nat.eqb_eq. now apply H2.
Qed.

Lemma in_lookup (n : string) (s : Series) (d : DataFrame) :
  In s (lookup n d) <-> In (n, s) (cols d).
Proof.
  unfold lookup. rewrite in_map_iff. split.
  - intros ([k v] & <- & Hin). apply filter_In in Hin. destruct Hin as [Hin E].
    cbn [fst snd] in *. apply String.eqb_eq in E. now subst.
  - intros Hin. exists (n, s). split; [reflexivity|].
    apply filter_In. split; [exact Hin | apply String.eqb_refl].
Qed.

Lemma length_ffill_from (last : float) (s : Series) :
  length (ffill_from last s) = length s.
Proof.
  revert last. induction s as [|x s IH]; intros last; [reflexivity|].
  cbn [ffill_from]. destruct (isna x); cbn [length]; now rewrite IH.
Qed.

Lemma length_keep {A} (mask : list bool) (l : list A) :
  length l = length mask ->
  length (keep mask l) = length (filter (fun b => b) mask).
Proof.
  unfold keep. rewrite length_map. revert l.
  induction mask as [|b mask IH]; intros [|x l] Hlen; try discriminate; [reflexivity|].
  cbn [combine filter snd]. destruct b; cbn [length]; rewrite IH; auto.
Qed.

Lemma in_keep_seq {A} (f : nat -> bool) (l : list A) (a n : nat) (x d : A) :
  In x (keep (map f (seq a n)) l) ->
  exists i, (i < n)%nat /\ (i < length l)%nat /\ f (a + i)%nat = true /\ x = nth i l d.
Proof.
  unfold keep. revert a n. induction l as [|y l IH]; intros a [|n] Hin;
    cbn [seq map combine filter] in Hin; try contradiction.
  cbn [snd] in Hin. destruct (f a) eqn:Efa.
  - destruct Hin as [<-|Hin].
    + exists 0%nat. cbn [length nth fst]. rewrite Nat.add_0_r. repeat split; try lia. exact Efa.
    + destruct (IH (S a) n Hin) as (i & H1 & H2 & H3 & H4).
      exists (S i). cbn [length nth]. rewrite Nat.add_succ_r. repeat split; try lia; assumption.
  - destruct (IH (S a) n Hin) as (i & H1 & H2 & H3 & H4).
    exists (S i). cbn [length nth]. rewrite Nat.add_succ_r. repeat split; try lia; assumption.
Qed.

(** After [dropna] no cell is missing. *)
Lemma dropna_complete (d : DataFrame) (n : string) (s : Series) :
  In s (lookup n (dropna d)) -> Forall (fun x => isna x = false) s.
Proof.
  intros Hin. apply in_lookup in Hin. unfold dropna in Hin. cbn [cols] in Hin.
  apply in_map_iff in Hin. destruct Hin as ([k col] & E & Hcol).
  cbn [fst snd] in E. injection E as -> <-.
  apply Forall_forall. intros x Hx.
  destruct (in_keep_seq _ _ _ _ _ NaN Hx) as (i & _ & _ & Hrow & ->).
  unfold row_complete in Hrow. rewrite forallb_forall in Hrow.
  specialize (Hrow _ Hcol). cbn [snd] in Hrow. unfold notna in Hrow.
  now apply negb_true_iff in Hrow.
Qed.

Lemma in_keep {A} (mask : list bool) (l : list A) (x : A) :
  In x (keep mask l) -> In x l.
Proof.
  unfold keep. intros Hin. apply in_map_iff in Hin. destruct Hin as ([y b] & <- & Hin).
  apply filter_In in Hin. destruct Hin as [Hin _]. now apply in_combine_l in Hin.
Qed.

Lemma finite_ffill_from (last : float) (s : Series) :
  finite_or_nan last = true -> forallb finite_or_nan s = true ->
  forallb finite_or_nan (ffill_from last s) = true.
Proof.
  revert last. induction s as [|x s IH]; intros last Hlast Hs; [reflexivity|].
  cbn [forallb ffill_from] in *. apply andb_true_iff in Hs. destruct Hs as [Hx Hs].
  destruct (isna x); cbn [forallb]; apply andb_true_iff; split; auto.
Qed.

(** The close column of the normalized frame of a frame of finite cells
    is a list of finite numbers. *)
Lemma close_is_finite (c : string) (d : DataFrame) (close : Series) :
  finite_cells d = true ->
  lookup "close" (normalized c d) = [close] ->
  exists xs, close = map Fin xs.
Proof.
  intros Hfin Hl.
  assert (Hin : In close (lookup "close" (normalized c d))) by (rewrite Hl; now left).
  pose proof (dropna_complete _ _ _ Hin) as Hna.
  apply in_lookup in Hin. unfold normalized, dropna, ffill, rename in Hin. cbn [cols] in Hin.
  rewrite !map_map in Hin. apply in_map_iff in Hin. destruct Hin as ([k col] & E & Hcol).
  cbn [fst snd] in E.
  assert (Hf : forallb finite_or_nan close = true).
  { unfold finite_cells in Hfin. rewrite forallb_forall in Hfin.
    specialize (Hfin _ Hcol). cbn [snd] in Hfin.
    apply forallb_forall. intros x Hx.
    assert (Hx' : In x (ffill_series col)).
    { destruct (String.eqb k c); cbn [fst snd] in E;
        apply (f_equal snd) in E; cbn [snd] in E; rewrite <- E in Hx;
        now apply in_keep in Hx. }
    pose proof (finite_ffill_from NaN col eq_refl Hfin) as Hall.
    rewrite forallb_forall in Hall. now apply Hall. }
  clear - Hna Hf. exists (map (fun x => match x with Fin r => r | _ => 0 end) close).
  rewrite map_map. induction close as [|x l IH]; [reflexivity|].
  cbn [forallb map] in *. apply andb_true_iff in Hf. destruct Hf as [Hx Hl].
  inversion Hna; subst. rewrite <- IH by assumption.
  destruct x; try discriminate; reflexivity.
Qed.

End Normalized.

Section RunFacts.
Import pd MarketData.

Lemma len_normalized (c : string) (d : DataFrame) :
  len (normalized c d) =
  length (filter (fun b => b)
            (map (row_complete (ffill (rename c "close" d))) (seq 0 (len d)))).
Proof.
  unfold normalized, dropna, len. cbn [index ffill rename].
  apply length_keep. rewrite length_map, length_seq. reflexivity.
Qed.

Lemma normalized_wf (c : string) (d : DataFrame) (close : Series) :
  wf d = true ->
  lookup "close" (normalized c d) = [close] ->
  NoDup (columns (normalized c d)) /\ length close = len (normalized c d).
Proof.
  intros Hwf Hl. apply wf_spec in Hwf. destruct Hwf as [Hu Hlen]. split.
  - rewrite columns_normalized. apply NoDup_renamed; [exact Hu|].
    rewrite <- columns_normalized, <- length_lookup, Hl. cbn [length]. lia.
  - assert (Hin : In close (lookup "close" (normalized c d))) by (rewrite Hl; now left).
    apply in_lookup in Hin. rewrite len_normalized.
    unfold normalized, dropna in Hin. cbn [cols] in Hin.
    apply in_map_iff in Hin. destruct Hin as ([k col] & E & Hcol).
    apply (f_equal snd) in E. cbn [snd] in E. rewrite <- E.
    unfold len. cbn [index ffill rename]. apply length_keep.
    rewrite length_map, length_seq.
    unfold ffill, rename in Hcol. cbn [cols] in Hcol. rewrite map_map in Hcol.
    apply in_map_iff in Hcol. destruct Hcol as ([k0 col0] & E0 & Hcol0).
    apply (f_equal snd) in E0. cbn [fst snd] in E0. rewrite <- E0.
    rewrite Forall_forall in Hlen. specialize (Hlen _ Hcol0). cbn [snd] in Hlen.
    unfold ffill_series. rewrite length_ffill_from.
    destruct (String.eqb k0 c); exact Hlen.
Qed.

(** What a successful call leaves behind. *)
Lemma run_ok_inv (self self' : t) (d : DataFrame) :
  df self = Some d ->
  wf d = true ->
  preprocess_data self = (Ok tt, self') ->
  exists c rest close,
    close_cols d = c :: rest /\
    lookup "close" (normalized c d) = [close] /\
    length close = len (normalized c d) /\
    df self' = Some (with_indicators close (normalized c d)) /\
    lookup "close" (with_indicators close (normalized c d)) = [close] /\
    timestamps self' = Some (index (normalized c d)) /\
    processed_data self' =
      Some (map (fun i => [cell (rolling_mean rolling_window close) i; cell (rsi close) i;
                           cell (upper_band close) i; cell (lower_band close) i])
                (seq 0 (length close))).
Proof.
  intros Hdf Hwf Hrun. rewrite (run_eq self d Hdf) in Hrun.
  destruct (close_cols d) as [|c rest]; [discriminate|].
  cbv zeta in Hrun.
  destruct (lookup "close" (normalized c d)) as [|close [|close' more]] eqn:Hl;
    try discriminate.
  injection Hrun as <-.
  destruct (normalized_wf c d close Hwf Hl) as [Hu Hlen].
  exists c, rest, close. repeat split; try assumption.
  - rewrite lookup_close_with_indicators. exact Hl.
  - unfold finish. cbn [timestamps set_timestamps]. now rewrite index_with_indicators.
  - unfold finish. cbn [processed_data set_timestamps set_processed_data].
    rewrite values_with_indicators by exact Hu. now rewrite Hlen.
Qed.

(** A call succeeds as soon as exactly one label reads "close" after the
    renaming. *)
Lemma run_ok (self : t) (d : DataFrame) (c : string) (rest : list string) :
  df self = Some d ->
  close_cols d = c :: rest ->
  length (filter (fun x => String.eqb x "close") (map (renamed c) (columns d))) = 1%nat ->
  fst (preprocess_data self) = Ok tt.
Proof.
  intros Hdf Hc Hone. rewrite (run_eq self d Hdf), Hc. cbv zeta.
  rewrite <- columns_normalized, <- length_lookup in Hone.
  destruct (lookup "close" (normalized c d)) as [|close [|close' more]];
    cbn [length] in Hone; try lia. reflexivity.
Qed.

End RunFacts.

(** ** Frames of finite cells *)

Section FiniteRun.
Import pd MarketData.

Lemma entry_rows (f : nat -> list float) (n i k : nat) :
  (i < n)%nat -> entry (map f (seq 0 n)) i k = nth k (f i) NaN.
Proof. intros Hi. unfold entry. now rewrite nth_map_seq. Qed.

(** A successful call on a well-formed frame of finite cells: the close
    column it has worked on is a list of numbers, and the four indicator
    columns are those computed from it. *)
Lemma run_finite_inv (self self' : t) (d : DataFrame) :
  df self = Some d ->
  wf d = true ->
  finite_cells d = true ->
  preprocess_data self = (Ok tt, self') ->
  exists d' xs rows,
    df self' = Some d' /\
    lookup "close" d' = [map Fin xs] /\
    timestamps self' = Some (index d') /\
    len d' = length xs /\
    processed_data self' = Some rows /\
    length rows = length xs /\
    forall i, (i < length xs)%nat ->
      entry rows i 0 = cell (rolling_mean rolling_window (map Fin xs)) i /\
      entry rows i 1 = cell (rsi (map Fin xs)) i /\
      entry rows i 2 = cell (upper_band (map Fin xs)) i /\
      entry rows i 3 = cell (lower_band (map Fin xs)) i.
Proof.
  intros Hdf Hwf Hfin Hrun.
  destruct (run_ok_inv self self' d Hdf Hwf Hrun)
    as (c & rest & close & Hc & Hl & Hlen & Hdf' & Hl' & Hts & Hpd).
  destruct (close_is_finite c d close Hfin Hl) as (xs & ->).
  rewrite length_map in Hlen, Hpd.
  eexists _, xs, _. repeat split.
  - exact Hdf'.
  - exact Hl'.
  - rewrite index_with_indicators. exact Hts.
  - unfold len. rewrite index_with_indicators. symmetry. exact Hlen.
  - exact Hpd.
  - now rewrite length_map, length_seq.
  - now rewrite entry_rows.
  - now rewrite entry_rows.
  - now rewrite entry_rows.
  - now rewrite entry_rows.
Qed.

Lemma run_pair (self : t) :
  fst (preprocess_data self) = Ok tt ->
  preprocess_data self = (Ok tt, snd (preprocess_data self)).
Proof. intros H. rewrite <- H. apply surjective_pairing. Qed.

End FiniteRun.

(** ** The averages behind the RSI, on a close column without gaps *)

Section RsiWindow.
Import pd MarketData.

Lemma window_incl {A} (w i : nat) (l : list A) (x : A) :
  In x (window w i l) -> In x l.
Proof.
  unfold window. intros H. apply (In_nth _ _ x) in H. destruct H as (k & Hk & <-).
  rewrite length_firstn, length_skipn in Hk.
  rewrite nth_firstn. destruct (Nat.ltb_spec k (S i - (S i - w))); [|lia].
  rewrite nth_skipn. apply nth_In. lia.
Qed.

Lemma Forall_window {A} (P : A -> Prop) (w i : nat) (l : list A) :
  Forall P l -> Forall P (window w i l).
Proof.
  rewrite !Forall_forall. intros H x Hx. apply H. now apply window_incl in Hx.
Qed.

Lemma Rmean_nonneg (l : list R) :
  l <> [] -> Forall (fun x => 0 <= x) l -> 0 <= Rmean l.
Proof.
  intros Hne Hl. unfold Rmean. apply Rmult_le_pos; [now apply Rsum_nonneg|].
  left. apply Rinv_0_lt_compat. now apply count_pos.
Qed.

Lemma Rmean_zero_iff (l : list R) :
  l <> [] -> Forall (fun x => 0 <= x) l ->
  (Rmean l = 0 <-> Forall (fun x => x = 0) l).
Proof.
  intros Hne Hl. pose proof (count_pos _ l Hne) as Hc. unfold Rmean. split.
  - intros H. apply Rsum_zero; [exact Hl|].
    apply Rmult_integral in H. destruct H as [H|H]; [exact H|].
    pose proof (Rinv_0_lt_compat _ Hc). lra.
  - intros H. rewrite (Rsum_all_zero l H). unfold Rdiv. apply Rmult_0_l.
Qed.

Lemma window_nonempty {A} (w i : nat) (l : list A) :
  (0 < w)%nat -> (i < length l)%nat -> window w i l <> [].
Proof.
  intros Hw Hi E. pose proof (length_window w i l Hi) as H.
  rewrite E in H. cbn [length] in H. lia.
Qed.

Lemma cell_avg_gain_Fin (xs : list R) (i : nat) :
  (i < length xs)%nat ->
  cell (avg_gain (map Fin xs)) i =
  if (i <? period - 1)%nat then NaN else Fin (Rmean (window period i (Rgain xs))).
Proof.
  intros Hi. unfold avg_gain. rewrite gain_Fin.
  rewrite cell_rolling_mean_Fin by (unfold period; lia || (rewrite length_Rgain; exact Hi)).
  unfold period.
  destruct (Nat.ltb_spec (S i) 14); destruct (Nat.ltb_spec i (14 - 1)); try lia; reflexivity.
Qed.

Lemma cell_avg_loss_Fin (xs : list R) (i : nat) :
  (i < length xs)%nat ->
  cell (avg_loss (map Fin xs)) i =
  if (i <? period - 1)%nat then NaN else Fin (Rmean (window period i (Rloss xs))).
Proof.
  intros Hi. unfold avg_loss. rewrite loss_Fin.
  rewrite cell_rolling_mean_Fin by (unfold period; lia || (rewrite length_Rloss; exact Hi)).
  unfold period.
  destruct (Nat.ltb_spec (S i) 14); destruct (Nat.ltb_spec i (14 - 1)); try lia; reflexivity.
Qed.

(** From index 13 on both averages are non-negative numbers. *)
Lemma averages_from_13 (xs : list R) (i : nat) :
  (period - 1 <= i < length xs)%nat ->
  exists g l,
    cell (avg_gain (map Fin xs)) i = Fin g /\ 0 <= g /\
    cell (avg_loss (map Fin xs)) i = Fin l /\ 0 <= l /\
    g = Rmean (window period i (Rgain xs)) /\
    l = Rmean (window period i (Rloss xs)).
Proof.
  intros [Hlo Hhi]. eexists _, _.
  rewrite cell_avg_gain_Fin, cell_avg_loss_Fin by exact Hhi.
  destruct (Nat.ltb_spec i (period - 1)); [lia|].
  repeat split.
  - apply Rmean_nonneg.
    + apply window_nonempty; [unfold period; lia | now rewrite length_Rgain].
    + apply Forall_window, Rgain_nonneg.
  - apply Rmean_nonneg.
    + apply window_nonempty; [unfold period; lia | now rewrite length_Rloss].
    + apply Forall_window, Rloss_nonneg.
Qed.

(** Below index 13 the RSI cell is null. *)
Lemma rsi_warm_up (xs : list R) (i : nat) :
  (i < length xs)%nat -> (i < period - 1)%nat ->
  cell (avg_gain (map Fin xs)) i = NaN /\
  cell (avg_loss (map Fin xs)) i = NaN /\
  cell (rsi (map Fin xs)) i = NaN.
Proof.
  intros Hi Hlt.
  assert (Hg : cell (avg_gain (map Fin xs)) i = NaN).
  { rewrite cell_avg_gain_Fin by exact Hi.
    destruct (Nat.ltb_spec i (period - 1)); [reflexivity | lia]. }
  assert (Hl : cell (avg_loss (map Fin xs)) i = NaN).
  { rewrite cell_avg_loss_Fin by exact Hi.
    destruct (Nat.ltb_spec i (period - 1)); [reflexivity | lia]. }
  repeat split; try assumption.
  rewrite cell_rsi by (now rewrite length_map). rewrite Hg. reflexivity.
Qed.

(** Both averages vanish exactly when no close of the trailing period
    differs from the one before it. *)
Lemma averages_zero_iff_flat (xs : list R) (i : nat) :
  (period - 1 <= i < length xs)%nat ->
  (Rmean (window period i (Rgain xs)) = 0 /\ Rmean (window period i (Rloss xs)) = 0) <->
  (forall j, (i - period <= j < i)%nat -> nth j xs 0 = nth (S j) xs 0).
Proof.
  intros [Hlo Hhi].
  assert (Hi' : (i < length (Rloss xs))%nat) by now rewrite length_Rloss.
  assert (Hi'' : (i < length (Rgain xs))%nat) by now rewrite length_Rgain.
  assert (Hw : (0 < period)%nat) by (unfold period; lia).
  rewrite !Rmean_zero_iff
    by (try (now apply window_nonempty); apply Forall_window;
        apply Rgain_nonneg || apply Rloss_nonneg).
  rewrite !Forall_forall. split.
  - intros [Hg Hl] j Hj.
    assert (Hin : forall l, (i < length l)%nat -> In (nth (S j) l 0) (window period i l)).
    { intros l Hl'. apply (in_window period i l 0 _ Hl'). exists (S j).
      split; [unfold period in *; lia | reflexivity]. }
    pose proof (Hg _ (Hin _ Hi'')) as Eg. pose proof (Hl _ (Hin _ Hi')) as El.
    rewrite nth_Rgain in Eg by lia. rewrite nth_Rloss in El by lia.
    destruct (Rltb 0 (nth (S j) xs 0 - nth j xs 0)) eqn:E1; [lra|].
    destruct (Rltb (nth (S j) xs 0 - nth j xs 0) 0) eqn:E2; [lra|].
    destruct (Rlt_dec 0 (nth (S j) xs 0 - nth j xs 0)) as [H|H];
      [rewrite (Rltb_true _ _ H) in E1; discriminate|].
    destruct (Rlt_dec (nth (S j) xs 0 - nth j xs 0) 0) as [H'|H'];
      [rewrite (Rltb_true _ _ H') in E2; discriminate|].
    lra.
  - intros Hflat. split; intros x Hx.
    + apply (in_window period i (Rgain xs) 0 x Hi'') in Hx. destruct Hx as (j & Hj & ->).
      destruct j as [|j].
      * destruct xs; [cbn [length] in Hhi; lia|]. reflexivity.
      * rewrite nth_Rgain by lia.
        assert (nth j xs 0 = nth (S j) xs 0) by (apply Hflat; unfold period in *; lia).
        rewrite Rltb_false by lra. reflexivity.
    + apply (in_window period i (Rloss xs) 0 x Hi') in Hx. destruct Hx as (j & Hj & ->).
      destruct j as [|j].
      * destruct xs; [cbn [length] in Hhi; lia|]. cbn [Rloss nth]. lra.
      * rewrite nth_Rloss by lia.
        assert (nth j xs 0 = nth (S j) xs 0) by (apply Hflat; unfold period in *; lia).
        rewrite Rltb_false by lra. lra.
Qed.

(** From index 13 on the RSI cell is null exactly on a flat period. *)
Lemma rsi_null_iff_flat (xs : list R) (i : nat) :
  (period - 1 <= i < length xs)%nat ->
  isna (cell (rsi (map Fin xs)) i) = true <->
  (forall j, (i - period <= j < i)%nat -> nth j xs 0 = nth (S j) xs 0).
Proof.
  intros Hi. rewrite <- (averages_zero_iff_flat xs i Hi).
  destruct (averages_from_13 xs i Hi) as (g & l & Hg & Hg0 & Hl & Hl0 & <- & <-).
  rewrite cell_rsi by (rewrite length_map; lia). rewrite Hg, Hl.
  destruct (rsi_of_cases g l Hg0 Hl0) as [(-> & -> & ->)|(Hn & r & -> & _)].
  - split; [now split | reflexivity].
  - split; [discriminate | intros H; now destruct Hn].
Qed.

(** A period without a fall and with at least one rise: RSI 100. *)
Lemma rsi_no_fall (xs : list R) (i : nat) :
  (period - 1 <= i < length xs)%nat ->
  (forall j, (i - period <= j < i)%nat -> nth j xs 0 <= nth (S j) xs 0) ->
  (exists j, (i - period <= j < i)%nat /\ nth j xs 0 < nth (S j) xs 0) ->
  cell (rsi (map Fin xs)) i = Fin 100.
Proof.
  intros [Hlo Hhi] Hup (j0 & Hj0 & Hrise).
  destruct (averages_from_13 xs i (conj Hlo Hhi)) as (g & l & Hg & Hg0 & Hl & Hl0 & Eg & El).
  rewrite cell_rsi by (now rewrite length_map). rewrite Hg, Hl.
  assert (Hi' : (i < length (Rloss xs))%nat) by now rewrite length_Rloss.
  assert (Hi'' : (i < length (Rgain xs))%nat) by now rewrite length_Rgain.
  assert (Hw : (0 < period)%nat) by (unfold period; lia).
  assert (Hlz : l = 0).
  { rewrite El. apply Rmean_zero_iff.
    - now apply window_nonempty.
    - apply Forall_window, Rloss_nonneg.
    - apply Forall_forall. intros x Hx.
      apply (in_window period i (Rloss xs) 0 x Hi') in Hx. destruct Hx as (j & Hj & ->).
      destruct j as [|j].
      + destruct xs; [cbn [length] in Hhi; lia|]. cbn [Rloss nth]. lra.
      + rewrite nth_Rloss by lia.
        assert (nth j xs 0 <= nth (S j) xs 0) by (apply Hup; unfold period in *; lia).
        rewrite Rltb_false by lra. lra. }
  assert (Hgp : 0 < g).
  { assert (Hne : g <> 0); [|lra]. rewrite Eg. intros E.
    apply Rmean_zero_iff in E.
    - rewrite Forall_forall in E.
      assert (Hin : In (nth (S j0) (Rgain xs) 0) (window period i (Rgain xs))).
      { apply (in_window period i (Rgain xs) 0 _ Hi''). exists (S j0).
        split; [unfold period in *; lia | reflexivity]. }
      apply E in Hin. rewrite nth_Rgain in Hin by lia.
      rewrite Rltb_true in Hin by lra. lra.
    - now apply window_nonempty.
    - apply Forall_window, Rgain_nonneg. }
  rewrite Hlz. now apply rsi_of_no_loss.
Qed.

(** A window over which every step is a rise: RSI 100. *)
Lemma rsi_rising (xs : list R) (i : nat) :
  (period - 1 <= i < length xs)%nat ->
  (forall j, (i - period <= j < i)%nat -> nth j xs 0 < nth (S j) xs 0) ->
  cell (rsi (map Fin xs)) i = Fin 100.
Proof.
  intros Hi Hup. apply rsi_no_fall; [exact Hi | |].
  - intros j Hj. left. now apply Hup.
  - exists (i - 1)%nat. unfold period in *.
    assert (Hj : (i - 14 <= i - 1 < i)%nat) by lia. split; [exact Hj|].
    now apply Hup.
Qed.

End RsiWindow.

(** ** The bands, on a close column without gaps *)

Section Bands.
Import pd MarketData.

Lemma length_rolling_mean w s : length (rolling_mean w s) = length s.
Proof. apply length_rolling. Qed.

Lemma length_rolling_std w s : length (rolling_std w s) = length s.
Proof. apply length_rolling. Qed.

(** Lines 62-63 act cell by cell. *)
Lemma cell_upper_band (close : Series) (i : nat) :
  (i < length close)%nat ->
  cell (upper_band close) i =
  fadd (cell (rolling_mean rolling_window close) i)
       (fmul (cell (rolling_std rolling_window close) i) (lit std_multiplier)).
Proof.
  intros Hi. unfold cell, upper_band, add, mul.
  rewrite (nth_zip_with fadd _ _ i NaN NaN NaN)
    by (rewrite ?length_map, ?length_rolling_mean, ?length_rolling_std; exact Hi).
  rewrite (nth_map_in _ _ _ _ NaN) by (rewrite length_rolling_std; exact Hi).
  reflexivity.
Qed.

Lemma cell_lower_band (close : Series) (i : nat) :
  (i < length close)%nat ->
  cell (lower_band close) i =
  fsub (cell (rolling_mean rolling_window close) i)
       (fmul (cell (rolling_std rolling_window close) i) (lit std_multiplier)).
Proof.
  intros Hi. unfold cell, lower_band, sub, mul.
  rewrite (nth_zip_with fsub _ _ i NaN NaN NaN)
    by (rewrite ?length_map, ?length_rolling_mean, ?length_rolling_std; exact Hi).
  rewrite (nth_map_in _ _ _ _ NaN) by (rewrite length_rolling_std; exact Hi).
  reflexivity.
Qed.

Lemma bands_Fin (xs : list R) (i : nat) :
  (i < length xs)%nat ->
  let w := firstn rolling_window (skipn (i - (rolling_window - 1)) xs) in
  cell (upper_band (map Fin xs)) i =
    (if (i <? rolling_window - 1)%nat then NaN
     else Fin (Rmean w + IZR std_multiplier * Rsample_std w)) /\
  cell (lower_band (map Fin xs)) i =
    (if (i <? rolling_window - 1)%nat then NaN
     else Fin (Rmean w - IZR std_multiplier * Rsample_std w)).
Proof.
  intros Hi w.
  rewrite cell_upper_band, cell_lower_band by (now rewrite length_map).
  rewrite cell_rolling_mean_Fin, cell_rolling_std_Fin
    by (unfold rolling_window; lia || exact Hi).
  unfold rolling_window in *.
  destruct (Nat.ltb_spec (S i) 10); destruct (Nat.ltb_spec i (10 - 1)); try lia;
    [split; reflexivity|].
  rewrite window_full by lia. fold w. unfold lit, std_multiplier.
  cbn [fmul fadd fsub fneg]. split; f_equal; lra.
Qed.

End Bands.

(** ** Frames without missing cells *)

Section Complete.
Import pd MarketData.

Lemma ffill_from_complete (last : float) (s : Series) :
  forallb notna s = true -> ffill_from last s = s.
Proof.
  revert last. induction s as [|x s IH]; intros last Hs; [reflexivity|].
  cbn [forallb ffill_from] in *. apply andb_true_iff in Hs. destruct Hs as [Hx Hs].
  unfold notna in Hx. apply negb_true_iff in Hx. rewrite Hx, IH by exact Hs. reflexivity.
Qed.

Lemma keep_all {A} (l : list A) (a n : nat) :
  length l = n -> keep (map (fun _ => true) (seq a n)) l = l.
Proof.
  unfold keep. revert a n. induction l as [|x l IH]; intros a [|n] Hlen;
    try discriminate; [reflexivity|].
  cbn [seq map combine filter snd fst]. f_equal. apply IH. now injection Hlen.
Qed.

Lemma map_cols_id (f : string * Series -> string * Series) (l : list (string * Series)) :
  (forall c, In c l -> f c = c) -> map f l = l.
Proof.
  intros H. rewrite <- (map_id l) at 2. apply map_ext_in. exact H.
Qed.

Lemma ffill_complete (d : DataFrame) : complete d = true -> ffill d = d.
Proof.
  intros Hc. destruct d as [ix cs]. unfold ffill, complete in *. cbn [index cols] in *.
  f_equal. apply map_cols_id. intros [k col] Hin. cbn [fst snd]. f_equal.
  rewrite forallb_forall in Hc. apply ffill_from_complete. exact (Hc _ Hin).
Qed.

Lemma row_complete_all (d : DataFrame) (i : nat) :
  complete d = true ->
  Forall (fun c => length (snd c) = len d) (cols d) ->
  (i < len d)%nat -> row_complete d i = true.
Proof.
  intros Hc Hlen Hi. unfold row_complete, complete in *.
  rewrite forallb_forall in *. rewrite Forall_forall in Hlen.
  intros c Hin. specialize (Hc _ Hin). specialize (Hlen _ Hin).
  rewrite forallb_forall in Hc. apply Hc, nth_In. lia.
Qed.

Lemma dropna_complete_id (d : DataFrame) :
  complete d = true ->
  Forall (fun c => length (snd c) = len d) (cols d) ->
  dropna d = d.
Proof.
  intros Hc Hlen. unfold dropna.
  assert (Hmask : map (row_complete d) (seq 0 (len d)) = map (fun _ => true) (seq 0 (len d))).
  { apply map_ext_in. intros i Hi. apply in_seq in Hi.
    apply row_complete_all; [assumption | assumption | lia]. }
  rewrite Hmask. destruct d as [ix cs]. unfold len in *. cbn [index cols] in *.
  f_equal; [now apply keep_all|].
  apply map_cols_id. intros [k col] Hin. cbn [fst snd]. f_equal.
  apply keep_all. rewrite Forall_forall in Hlen. exact (Hlen _ Hin).
Qed.

(** On a frame without missing cells lines 38-41 change nothing. *)
Lemma normalized_complete (c : string) (d : DataFrame) :
  wf d = true -> complete d = true -> normalized c d = rename c "close" d.
Proof.
  intros Hwf Hc. apply wf_spec in Hwf. destruct Hwf as [_ Hlen].
  assert (Hc' : complete (rename c "close" d) = true).
  { unfold complete, rename in *. cbn [cols]. rewrite forallb_forall in *.
    intros x Hx. apply in_map_iff in Hx. destruct Hx as ([k col] & <- & Hin).
    specialize (Hc _ Hin). cbn [fst snd] in *. destruct (String.eqb k c); exact Hc. }
  assert (Hlen' : Forall (fun x => length (snd x) = len (rename c "close" d))
                         (cols (rename c "close" d))).
  { unfold rename, len in *. cbn [cols index]. apply Forall_map.
    eapply Forall_impl; [|exact Hlen]. intros [k col] H. cbn [fst snd] in *.
    destruct (String.eqb k c); exact H. }
  unfold normalized. rewrite ffill_complete by exact Hc'.
  now apply dropna_complete_id.
Qed.

(** The call on a frame of bars. *)
Lemma bars_run (ts : list Timestamp) (closes : list R) :
  length ts = length closes ->
  let close := map Fin closes in
  let self' := snd (preprocess_data (loaded (bars ts closes))) in
  fst (preprocess_data (loaded (bars ts closes))) = Ok tt /\
  timestamps self' = Some ts /\
  processed_data self' =
    Some (map (fun i => [cell (rolling_mean rolling_window close) i; cell (rsi close) i;
                         cell (upper_band close) i; cell (lower_band close) i])
              (seq 0 (length closes))).
Proof.
  intros Hlen close self'.
  assert (Hwf : wf (bars ts closes) = true).
  { unfold wf, bars, len. cbn [columns cols map fst snd index forallb].
    rewrite !length_map, Hlen, Nat.eqb_refl. reflexivity. }
  assert (Hc : complete (bars ts closes) = true).
  { unfold complete, bars. cbn [cols forallb snd].
    rewrite !andb_true_iff. repeat split; apply forallb_forall; intros x Hx;
      apply in_map_iff in Hx; destruct Hx as (y & <- & _); reflexivity. }
  assert (Hfst : fst (preprocess_data (loaded (bars ts closes))) = Ok tt)
    by (apply (run_ok _ (bars ts closes) "4. close" []); reflexivity).
  split; [exact Hfst|].
  destruct (run_ok_inv (loaded (bars ts closes)) self' (bars ts closes)
              eq_refl Hwf (run_pair _ Hfst))
    as (c & rest & close' & Hcc & Hl & Hlen' & _ & _ & Hts & Hpd).
  injection Hcc as <- <-. rewrite normalized_complete in Hl, Hts by assumption.
  injection Hl as <-. fold close in Hpd. split; [exact Hts|].
  unfold close in Hpd at 5. rewrite length_map in Hpd. exact Hpd.
Qed.

End Complete.

(** * The claims *)

Section Claims.
Import pd MarketData.

(** C5.  After a successful call on a well-formed frame of finite cells,
    column 0 of [processed_data] ([rolling_ma], window 10) is null at every
    index below 9 and, from index 9 on, the arithmetic mean of the ten
    closes [close[i-9 .. i]] of the normalized frame.  For the closes
    1, 2, ..., 11 it is null at indices 0-8, 5.5 at index 9 and 6.5 at
    index 10. *)
Theorem rolling_ma_is_window_mean :
  (forall (self self' : t) (d : DataFrame),
      df self = Some d ->
      wf d = true ->
      finite_cells d = true ->
      preprocess_data self = (Ok tt, self') ->
      exists d' xs rows,
        df self' = Some d' /\
        lookup "close" d' = [map Fin xs] /\
        processed_data self' = Some rows /\
        length rows = length xs /\
        forall i, (i < length xs)%nat ->
          entry rows i 0 =
          if (i <? rolling_window - 1)%nat then NaN
          else Fin (Rmean (firstn rolling_window (skipn (i - (rolling_window - 1)) xs)))) /\
  (exists rows,
      processed_data (snd (preprocess_data (loaded eleven))) = Some rows /\
      map (fun row => cell row 0) rows =
      [NaN; NaN; NaN; NaN; NaN; NaN; NaN; NaN; NaN; Fin (11 / 2); Fin (13 / 2)]).
Proof.
  split.
  - intros self self' d Hdf Hwf Hfin Hrun.
    destruct (run_finite_inv self self' d Hdf Hwf Hfin Hrun)
      as (d' & xs & rows & Hdf' & Hl & _ & _ & Hpd & Hlen & Hrows).
    exists d', xs, rows. repeat split; try assumption.
    intros i Hi. destruct (Hrows i Hi) as (-> & _).
    rewrite cell_rolling_mean_Fin by (unfold rolling_window; lia || exact Hi).
    unfold rolling_window.
    destruct (Nat.ltb_spec (S i) 10); destruct (Nat.ltb_spec i (10 - 1)); try lia;
      [reflexivity|].
    rewrite window_full by lia. reflexivity.
  - destruct (bars_run [1; 2; 3; 4; 5; 6; 7; 8; 9; 10; 11]%Z
                       [1; 2; 3; 4; 5; 6; 7; 8; 9; 10; 11] eq_refl) as (_ & _ & Hpd).
    eexists. split; [exact Hpd|].
    rewrite map_map.
    erewrite map_ext_in;
      [|intros i Hi; apply in_seq in Hi; cbn [cell nth];
        apply (cell_rolling_mean_Fin rolling_window); [unfold rolling_window; lia | lia]].
    unfold rolling_window, window, Rmean, Rsum.
    cbn [seq map Nat.ltb Nat.leb Nat.sub firstn skipn fold_right length Z.of_nat
         Pos.of_succ_nat Pos.succ].
    repeat match goal with |- _ :: _ = _ :: _ => apply f_equal2 end;
      try reflexivity; apply f_equal; lra.
Qed.

Lemma rolling_ma_is_window_mean_witness :
  exists d' xs rows,
    df (snd (preprocess_data (loaded eleven))) = Some d' /\
    lookup "close" d' = [map Fin xs] /\
    processed_data (snd (preprocess_data (loaded eleven))) = Some rows /\
    length rows = length xs /\
    forall i, (i < length xs)%nat ->
      entry rows i 0 =
      if (i <? rolling_window - 1)%nat then NaN
      else Fin (Rmean (firstn rolling_window (skipn (i - (rolling_window - 1)) xs))).
Proof.
  apply (proj1 rolling_ma_is_window_mean (loaded eleven) _ eleven).
  - reflexivity.
  - reflexivity.
  - reflexivity.
  - apply run_pair. reflexivity.
Defined.

(** C1, as the code has it.  After a successful call on a well-formed
    frame of finite cells the RSI column (column 1 of [processed_data]) is
    aligned with the frame and its timestamps; [avg_gain] and [avg_loss]
    are null exactly at the indices below 13 = P - 1, because [where]
    turns the undefined first difference into a zero gain and loss; the
    RSI cell is null at those indices and, from index 13 on, exactly where
    both averages are zero. *)
Theorem rsi_null_below_13 (self self' : t) (d : DataFrame) :
  df self = Some d ->
  wf d = true ->
  finite_cells d = true ->
  preprocess_data self = (Ok tt, self') ->
  exists d' xs rows,
    df self' = Some d' /\
    lookup "close" d' = [map Fin xs] /\
    timestamps self' = Some (index d') /\
    len d' = length xs /\
    processed_data self' = Some rows /\
    length rows = length xs /\
    forall i, (i < length xs)%nat ->
      let ag := cell (avg_gain (map Fin xs)) i in
      let al := cell (avg_loss (map Fin xs)) i in
      entry rows i 1 = rsi_of ag al /\
      isna ag = (i <? period - 1)%nat /\
      isna al = (i <? period - 1)%nat /\
      (isna (entry rows i 1) = true <->
       (i < period - 1)%nat \/ (ag = Fin 0 /\ al = Fin 0)).
Proof.
  intros Hdf Hwf Hfin Hrun.
  destruct (run_finite_inv self self' d Hdf Hwf Hfin Hrun)
    as (d' & xs & rows & Hdf' & Hl & Hts & Hlen' & Hpd & Hlen & Hrows).
  exists d', xs, rows. repeat split; try assumption.
  - destruct (Hrows i H) as (_ & -> & _). apply cell_rsi. now rewrite length_map.
  - rewrite cell_avg_gain_Fin by exact H. now destruct (i <? period - 1)%nat.
  - rewrite cell_avg_loss_Fin by exact H. now destruct (i <? period - 1)%nat.
  - intros Hna. destruct (Hrows i H) as (_ & E & _). rewrite E in Hna.
    destruct (Nat.lt_ge_cases i (period - 1)) as [Hlt|Hge]; [now left | right].
    destruct (averages_from_13 xs i (conj Hge H)) as (g & l & Hg & Hg0 & Hl0 & Hl1 & _).
    rewrite cell_rsi in Hna by (now rewrite length_map). rewrite Hg, Hl0 in *.
    destruct (rsi_of_cases g l Hg0 Hl1) as [(-> & -> & _)|(_ & r & Er & _)].
    + now split.
    + rewrite Er in Hna. discriminate.
  - intros Hcase. destruct (Hrows i H) as (_ & -> & _).
    rewrite cell_rsi by (now rewrite length_map).
    destruct Hcase as [Hlt|[-> ->]].
    + destruct (rsi_warm_up xs i H Hlt) as (-> & _). reflexivity.
    + now rewrite rsi_of_flat.
Qed.

Lemma rsi_null_below_13_witness :
  exists d' xs rows,
    df (snd (preprocess_data (loaded fifteen))) = Some d' /\
    lookup "close" d' = [map Fin xs] /\
    timestamps (snd (preprocess_data (loaded fifteen))) = Some (index d') /\
    len d' = length xs /\
    processed_data (snd (preprocess_data (loaded fifteen))) = Some rows /\
    length rows = length xs /\
    forall i, (i < length xs)%nat ->
      let ag := cell (avg_gain (map Fin xs)) i in
      let al := cell (avg_loss (map Fin xs)) i in
      entry rows i 1 = rsi_of ag al /\
      isna ag = (i <? period - 1)%nat /\
      isna al = (i <? period - 1)%nat /\
      (isna (entry rows i 1) = true <->
       (i < period - 1)%nat \/ (ag = Fin 0 /\ al = Fin 0)).
Proof.
  apply (rsi_null_below_13 (loaded fifteen) _ fifteen).
  - reflexivity.
  - reflexivity.
  - reflexivity.
  - apply run_pair. reflexivity.
Defined.

(** C1 as stated fails: on fifteen rising closes the RSI cells at indices
    13 and 14, both among the first P + 1 = 15 indices and the former
    below P = 14, hold the value 100. *)
Lemma rsi_valid_at_13_and_14 :
  exists rows,
    processed_data (snd (preprocess_data (loaded fifteen))) = Some rows /\
    (13 < period)%nat /\ (14 < period + 1)%nat /\
    entry rows 13 1 = Fin 100 /\ isna (entry rows 13 1) = false /\
    entry rows 14 1 = Fin 100 /\ isna (entry rows 14 1) = false.
Proof.
  destruct (bars_run [1; 2; 3; 4; 5; 6; 7; 8; 9; 10; 11; 12; 13; 14; 15]%Z
                     [1; 2; 3; 4; 5; 6; 7; 8; 9; 10; 11; 12; 13; 14; 15] eq_refl)
    as (_ & _ & Hpd).
  eexists. split; [exact Hpd|].
  cbn [length]. rewrite !entry_rows by lia. cbn [nth].
  assert (H13 : cell (rsi (map Fin [1; 2; 3; 4; 5; 6; 7; 8; 9; 10; 11; 12; 13; 14; 15])) 13
                = Fin 100).
  { apply rsi_rising; [unfold period; cbn [length]; lia|].
    intros j Hj. unfold period in Hj.
    do 13 (destruct j as [|j]; [cbn [nth]; lra|]). lia. }
  assert (H14 : cell (rsi (map Fin [1; 2; 3; 4; 5; 6; 7; 8; 9; 10; 11; 12; 13; 14; 15])) 14
                = Fin 100).
  { apply rsi_rising; [unfold period; cbn [length]; lia|].
    intros j Hj. unfold period in Hj.
    do 14 (destruct j as [|j]; [cbn [nth]; lra|]). lia. }
  rewrite H13, H14. unfold period. repeat split; lia.
Qed.

(** C7.  After a successful call on a well-formed frame of finite cells
    every RSI cell is null or a number between 0 and 100; and at every
    index from 13 on whose trailing period consists of rises only (each
    close above the one before it), the RSI cell is 100. *)
Theorem rsi_bounded_and_100_on_rise (self self' : t) (d : DataFrame) :
  df self = Some d ->
  wf d = true ->
  finite_cells d = true ->
  preprocess_data self = (Ok tt, self') ->
  exists d' xs rows,
    df self' = Some d' /\
    lookup "close" d' = [map Fin xs] /\
    processed_data self' = Some rows /\
    length rows = length xs /\
    (forall i, (i < length xs)%nat ->
       entry rows i 1 = NaN \/
       exists r, entry rows i 1 = Fin r /\ 0 <= r <= 100) /\
    (forall i, (period - 1 <= i < length xs)%nat ->
       (forall j, (i - period <= j < i)%nat -> nth j xs 0 < nth (S j) xs 0) ->
       entry rows i 1 = Fin 100).
Proof.
  intros Hdf Hwf Hfin Hrun.
  destruct (run_finite_inv self self' d Hdf Hwf Hfin Hrun)
    as (d' & xs & rows & Hdf' & Hl & Hts & Hlen' & Hpd & Hlen & Hrows).
  exists d', xs, rows. split; [exact Hdf'|]. split; [exact Hl|].
  split; [exact Hpd|]. split; [exact Hlen|]. split.
  - intros i Hi. destruct (Hrows i Hi) as (_ & -> & _).
    destruct (Nat.lt_ge_cases i (period - 1)) as [Hlt|Hge].
    + left. now destruct (rsi_warm_up xs i Hi Hlt) as (_ & _ & ->).
    + destruct (averages_from_13 xs i (conj Hge Hi)) as (g & l & Hg & Hg0 & Hl0 & Hl1 & _).
      rewrite cell_rsi by (now rewrite length_map). rewrite Hg, Hl0.
      destruct (rsi_of_cases g l Hg0 Hl1) as [(_ & _ & ->)|(_ & r & -> & Hr)].
      * now left.
      * right. now exists r.
  - intros i Hi Hup. destruct (Hrows i (proj2 Hi)) as (_ & -> & _).
    now apply rsi_rising.
Qed.

Lemma rsi_bounded_and_100_on_rise_witness :
  exists d' xs rows,
    df (snd (preprocess_data (loaded fifteen))) = Some d' /\
    lookup "close" d' = [map Fin xs] /\
    processed_data (snd (preprocess_data (loaded fifteen))) = Some rows /\
    length rows = length xs /\
    (forall i, (i < length xs)%nat ->
       entry rows i 1 = NaN \/
       exists r, entry rows i 1 = Fin r /\ 0 <= r <= 100) /\
    (forall i, (period - 1 <= i < length xs)%nat ->
       (forall j, (i - period <= j < i)%nat -> nth j xs 0 < nth (S j) xs 0) ->
       entry rows i 1 = Fin 100).
Proof.
  apply (rsi_bounded_and_100_on_rise (loaded fifteen) _ fifteen).
  - reflexivity.
  - reflexivity.
  - reflexivity.
  - apply run_pair. reflexivity.
Defined.

(** C8.  After a successful call on a well-formed frame, at an index where
    [avg_loss] is 0: when [avg_gain > 0] the RSI cell is 100; when
    [avg_gain] is 0 as well the RSI cell is NaN, which is the null of the
    frame ([isna]), the same value the warm-up cells hold. *)
Theorem rsi_zero_loss_policy (self self' : t) (d : DataFrame) :
  df self = Some d ->
  wf d = true ->
  preprocess_data self = (Ok tt, self') ->
  exists d' close rows,
    df self' = Some d' /\
    lookup "close" d' = [close] /\
    processed_data self' = Some rows /\
    forall i, (i < length close)%nat ->
      cell (avg_loss close) i = Fin 0 ->
      (fgtb (cell (avg_gain close) i) (lit 0) = true -> entry rows i 1 = Fin 100) /\
      (cell (avg_gain close) i = Fin 0 ->
       entry rows i 1 = NaN /\ isna (entry rows i 1) = true).
Proof.
  intros Hdf Hwf Hrun.
  destruct (run_ok_inv self self' d Hdf Hwf Hrun)
    as (c & rest & close & Hc & Hl & Hlen & Hdf' & Hl' & Hts & Hpd).
  eexists _, close, _. split; [exact Hdf'|]. split; [exact Hl'|]. split; [exact Hpd|].
  intros i Hi Hloss. rewrite entry_rows by exact Hi. cbn [nth].
  change (nth i (rsi close) NaN) with (cell (rsi close) i).
  rewrite cell_rsi by exact Hi. rewrite Hloss. split.
  - apply rsi_of_no_loss_gt.
  - intros ->. rewrite rsi_of_flat. now split.
Qed.

Lemma rsi_zero_loss_policy_witness :
  exists d' close rows,
    df (snd (preprocess_data (loaded fifteen))) = Some d' /\
    lookup "close" d' = [close] /\
    processed_data (snd (preprocess_data (loaded fifteen))) = Some rows /\
    forall i, (i < length close)%nat ->
      cell (avg_loss close) i = Fin 0 ->
      (fgtb (cell (avg_gain close) i) (lit 0) = true -> entry rows i 1 = Fin 100) /\
      (cell (avg_gain close) i = Fin 0 ->
       entry rows i 1 = NaN /\ isna (entry rows i 1) = true).
Proof.
  apply (rsi_zero_loss_policy (loaded fifteen) _ fifteen).
  - reflexivity.
  - reflexivity.
  - apply run_pair. reflexivity.
Defined.

(** C6.  After a successful call on a well-formed frame of finite cells,
    columns 2 and 3 of [processed_data] (upper and lower band) are null
    exactly at the indices below 9 = W - 1 and, from index 9 on, the mean
    of the ten closes [close[i-9 .. i]] plus and minus K = 2 times their
    sample standard deviation, the square root of the sum of squared
    deviations from the mean divided by N - 1 = 9. *)
Theorem bands_are_mean_plus_minus_2_std (self self' : t) (d : DataFrame) :
  df self = Some d ->
  wf d = true ->
  finite_cells d = true ->
  preprocess_data self = (Ok tt, self') ->
  exists d' xs rows,
    df self' = Some d' /\
    lookup "close" d' = [map Fin xs] /\
    processed_data self' = Some rows /\
    length rows = length xs /\
    forall i, (i < length xs)%nat ->
      let w := firstn 10 (skipn (i - 9) xs) in
      let m := Rsum w / 10 in
      let sd := sqrt (Rsum (map (fun x => (x - m) * (x - m)) w) / (10 - 1)) in
      (i < 9 -> entry rows i 2 = NaN /\ entry rows i 3 = NaN)%nat /\
      (9 <= i -> entry rows i 2 = Fin (m + 2 * sd) /\ entry rows i 3 = Fin (m - 2 * sd))%nat.
Proof.
  intros Hdf Hwf Hfin Hrun.
  destruct (run_finite_inv self self' d Hdf Hwf Hfin Hrun)
    as (d' & xs & rows & Hdf' & Hl & Hts & Hlen' & Hpd & Hlen & Hrows).
  exists d', xs, rows. split; [exact Hdf'|]. split; [exact Hl|].
  split; [exact Hpd|]. split; [exact Hlen|].
  intros i Hi w m sd. destruct (Hrows i Hi) as (_ & _ & -> & ->).
  destruct (bands_Fin xs i Hi) as [-> ->]. unfold rolling_window, std_multiplier.
  change (10 - 1)%nat with 9%nat. fold w.
  split; intros Hcase.
  - destruct (Nat.ltb_spec i 9); [now split | lia].
  - destruct (Nat.ltb_spec i 9); [lia|].
    assert (Hw : length w = 10%nat).
    { unfold w. rewrite length_firstn, length_skipn. lia. }
    assert (Em : Rmean w = m).
    { unfold Rmean, m. rewrite Hw. reflexivity. }
    assert (Es : Rsample_std w = sd).
    { unfold Rsample_std. rewrite Em, Hw. reflexivity. }
    rewrite Em, Es. now split.
Qed.

Lemma bands_are_mean_plus_minus_2_std_witness :
  exists d' xs rows,
    df (snd (preprocess_data (loaded eleven))) = Some d' /\
    lookup "close" d' = [map Fin xs] /\
    processed_data (snd (preprocess_data (loaded eleven))) = Some rows /\
    length rows = length xs /\
    forall i, (i < length xs)%nat ->
      let w := firstn 10 (skipn (i - 9) xs) in
      let m := Rsum w / 10 in
      let sd := sqrt (Rsum (map (fun x => (x - m) * (x - m)) w) / (10 - 1)) in
      (i < 9 -> entry rows i 2 = NaN /\ entry rows i 3 = NaN)%nat /\
      (9 <= i -> entry rows i 2 = Fin (m + 2 * sd) /\ entry rows i 3 = Fin (m - 2 * sd))%nat.
Proof.
  apply (bands_are_mean_plus_minus_2_std (loaded eleven) _ eleven).
  - reflexivity.
  - reflexivity.
  - reflexivity.
  - apply run_pair. reflexivity.
Defined.

(** C4, as the code has it.  After a successful call on a well-formed
    frame of finite cells none of which is missing, [processed_data] has
    one row per input row and [timestamps] is the input index; the moving
    average and both bands are null exactly at the indices below 9; the
    RSI is null at the indices below 13 and, from index 13 on, exactly
    where the trailing period is flat (no close differs from the one
    before it), so it can be null again after it has held a value. *)
Theorem aligned_and_null_in_warm_up (self self' : t) (d : DataFrame) :
  df self = Some d ->
  wf d = true ->
  finite_cells d = true ->
  complete d = true ->
  preprocess_data self = (Ok tt, self') ->
  exists d' xs rows,
    df self' = Some d' /\
    lookup "close" d' = [map Fin xs] /\
    processed_data self' = Some rows /\
    timestamps self' = Some (index d) /\
    index d' = index d /\
    length rows = len d /\
    length xs = len d /\
    forall i, (i < len d)%nat ->
      isna (entry rows i 0) = (i <? rolling_window - 1)%nat /\
      isna (entry rows i 2) = (i <? rolling_window - 1)%nat /\
      isna (entry rows i 3) = (i <? rolling_window - 1)%nat /\
      ((i < period - 1)%nat -> isna (entry rows i 1) = true) /\
      ((period - 1 <= i)%nat ->
       (isna (entry rows i 1) = true <->
        forall j, (i - period <= j < i)%nat -> nth j xs 0 = nth (S j) xs 0)).
Proof.
  intros Hdf Hwf Hfin Hcomp Hrun.
  destruct (run_finite_inv self self' d Hdf Hwf Hfin Hrun)
    as (d' & xs & rows & Hdf' & Hl & Hts & Hlen' & Hpd & Hlen & Hrows).
  destruct (run_ok_inv self self' d Hdf Hwf Hrun)
    as (c & _ & _ & _ & _ & _ & _ & _ & Hts' & _).
  rewrite normalized_complete in Hts' by assumption. cbn [rename index] in Hts'.
  assert (Hix : index d' = index d) by congruence.
  assert (Hn : length xs = len d) by (rewrite <- Hlen'; unfold len; now rewrite Hix).
  exists d', xs, rows. repeat (split; [first [assumption | congruence]|]).
  intros i Hi. rewrite <- Hn in Hi.
  destruct (Hrows i Hi) as (-> & -> & -> & ->).
  destruct (bands_Fin xs i Hi) as [-> ->].
  rewrite cell_rolling_mean_Fin by (unfold rolling_window; lia || exact Hi).
  unfold rolling_window.
  repeat split.
  - destruct (Nat.ltb_spec (S i) 10); destruct (Nat.ltb_spec i (10 - 1)); try lia; reflexivity.
  - now destruct (i <? 10 - 1)%nat.
  - now destruct (i <? 10 - 1)%nat.
  - intros Hlt. now destruct (rsi_warm_up xs i Hi Hlt) as (_ & _ & ->).
  - now apply rsi_null_iff_flat.
  - now apply rsi_null_iff_flat.
Qed.

Lemma aligned_and_null_in_warm_up_witness :
  exists d' xs rows,
    df (snd (preprocess_data (loaded stalled))) = Some d' /\
    lookup "close" d' = [map Fin xs] /\
    processed_data (snd (preprocess_data (loaded stalled))) = Some rows /\
    timestamps (snd (preprocess_data (loaded stalled))) = Some (index stalled) /\
    index d' = index stalled /\
    length rows = len stalled /\
    length xs = len stalled /\
    forall i, (i < len stalled)%nat ->
      isna (entry rows i 0) = (i <? rolling_window - 1)%nat /\
      isna (entry rows i 2) = (i <? rolling_window - 1)%nat /\
      isna (entry rows i 3) = (i <? rolling_window - 1)%nat /\
      ((i < period - 1)%nat -> isna (entry rows i 1) = true) /\
      ((period - 1 <= i)%nat ->
       (isna (entry rows i 1) = true <->
        forall j, (i - period <= j < i)%nat -> nth j xs 0 = nth (S j) xs 0)).
Proof.
  apply (aligned_and_null_in_warm_up (loaded stalled) _ stalled).
  - reflexivity.
  - reflexivity.
  - reflexivity.
  - reflexivity.
  - apply run_pair. reflexivity.
Defined.

(** C4 as stated fails for the RSI: on a rise followed by fifteen equal
    closes the RSI cell holds 100 at index 14 and is null again at
    index 15, although fifteen steps of history precede it. *)
Lemma rsi_null_again_after_value :
  exists rows,
    processed_data (snd (preprocess_data (loaded stalled))) = Some rows /\
    entry rows 14 1 = Fin 100 /\ isna (entry rows 14 1) = false /\
    isna (entry rows 15 1) = true.
Proof.
  destruct (bars_run [1; 2; 3; 4; 5; 6; 7; 8; 9; 10; 11; 12; 13; 14; 15; 16]%Z
                     [1; 2; 2; 2; 2; 2; 2; 2; 2; 2; 2; 2; 2; 2; 2; 2] eq_refl)
    as (_ & _ & Hpd).
  eexists. split; [exact Hpd|].
  cbn [length]. rewrite !entry_rows by lia. cbn [nth].
  assert (H14 : cell (rsi (map Fin [1; 2; 2; 2; 2; 2; 2; 2; 2; 2; 2; 2; 2; 2; 2; 2])) 14
                = Fin 100).
  { apply rsi_no_fall; [unfold period; cbn [length]; lia | |].
    - intros j Hj. unfold period in Hj.
      do 14 (destruct j as [|j]; [cbn [nth]; lra|]). lia.
    - exists 0%nat. unfold period. split; [lia | cbn [nth]; lra]. }
  assert (H15 : isna (cell (rsi (map Fin [1; 2; 2; 2; 2; 2; 2; 2; 2; 2; 2; 2; 2; 2; 2; 2])) 15)
                = true).
  { apply rsi_null_iff_flat; [unfold period; cbn [length]; lia|].
    intros j Hj. unfold period in Hj.
    destruct j as [|j]; [lia|].
    do 14 (destruct j as [|j]; [reflexivity|]). lia. }
  rewrite H14. repeat split. exact H15.
Qed.

Lemma prefix_spec (p s : string) :
  String.prefix p s = true <-> exists suf, s = (p ++ suf)%string.
Proof.
  revert s. induction p as [|a p IH]; intros s.
  - split; [intros _; now exists s | intros _; destruct s; reflexivity].
  - destruct s as [|b s]; cbn [String.prefix String.append];
      [split; [discriminate | intros (suf & H); discriminate]|].
    destruct (Ascii.ascii_dec a b) as [->|Hab].
    + rewrite IH. split; intros (suf & H); exists suf; [now rewrite H | now injection H].
    + split; [discriminate | intros (suf & H); injection H as H1 H2; congruence].
Qed.

Lemma contains_spec (pat s : string) :
  contains pat s = true <-> exists pre suf, s = (pre ++ pat ++ suf)%string.
Proof.
  induction s as [|b s IH].
  - cbn [contains]. rewrite orb_false_r, prefix_spec. split.
    + intros (suf & H). now exists EmptyString, suf.
    + intros (pre & suf & H). destruct pre as [|a pre]; [now exists suf | discriminate].
  - cbn [contains]. rewrite orb_true_iff, prefix_spec, IH. split.
    + intros [(suf & H)|(pre & suf & H)].
      * now exists EmptyString, suf.
      * exists (String b pre), suf. cbn [String.append]. now rewrite H.
    + intros (pre & suf & H). destruct pre as [|a pre].
      * left. now exists suf.
      * right. cbn [String.append] in H. injection H as _ H. now exists pre, suf.
Qed.

Lemma contains_ci_close (label : string) :
  contains_ci "close" label = true <-> mentions_close label.
Proof. unfold contains_ci, mentions_close. apply contains_spec. Qed.

Lemma close_cols_nil (d : DataFrame) :
  close_cols d = [] <-> forall label, In label (columns d) -> ~ mentions_close label.
Proof.
  unfold close_cols. split.
  - intros H label Hin Hm. apply contains_ci_close in Hm.
    assert (Hf : In label (filter (contains_ci "close") (columns d)))
      by (apply filter_In; now split).
    rewrite H in Hf. contradiction.
  - intros H. induction (columns d) as [|x l IH]; [reflexivity|].
    cbn [filter]. destruct (contains_ci "close" x) eqn:E.
    + exfalso. apply (H x); [now left | now apply contains_ci_close].
    + apply IH. intros label Hin. apply H. now right.
Qed.

(** C3.  With a frame stored: when no label contains "close" in any
    letter case the call raises the missing-column [ValueError] and leaves
    every field as it was; when some label does, the call does not raise
    that error. *)
Theorem missing_close_is_raised (self : t) (d : DataFrame) :
  df self = Some d ->
  ((forall label, In label (columns d) -> ~ mentions_close label) ->
   preprocess_data self = (Raise missing_close, self)) /\
  ((exists label, In label (columns d) /\ mentions_close label) ->
   fst (preprocess_data self) <> Raise missing_close).
Proof.
  intros Hdf. rewrite (run_eq self d Hdf). split.
  - intros Hnone. apply close_cols_nil in Hnone. now rewrite Hnone.
  - intros (label & Hin & Hm).
    destruct (close_cols d) as [|c rest] eqn:Hc.
    + exfalso. rewrite close_cols_nil in Hc. exact (Hc label Hin Hm).
    + cbv zeta.
      destruct (lookup "close" (normalized c d)) as [|close [|close' more]];
        cbn [fst]; unfold missing_close; intros H; inversion H.
Qed.

Lemma missing_close_is_raised_witness :
  preprocess_data (loaded no_close) = (Raise missing_close, loaded no_close) /\
  fst (preprocess_data (loaded eleven)) <> Raise missing_close.
Proof.
  split.
  - apply (missing_close_is_raised (loaded no_close) no_close); [reflexivity|].
    intros label [<-|[<-|[]]] Hm; apply contains_ci_close in Hm; discriminate Hm.
  - apply (missing_close_is_raised (loaded eleven) eleven); [reflexivity|].
    exists "4. close"%string. split.
    + cbn. tauto.
    + apply contains_ci_close. reflexivity.
Defined.

End Claims.

(** ** Row labels *)

Section Labels.
Import pd MarketData.

Lemma setitem_relabel (n : string) (s : Series) (ts : list Timestamp) (d : DataFrame) :
  setitem n s (relabel ts d) = relabel ts (setitem n s d).
Proof.
  unfold setitem, relabel, columns. cbn [cols index].
  destruct (existsb (String.eqb n) (map fst (cols d))); reflexivity.
Qed.

Lemma with_indicators_relabel (close : Series) (ts : list Timestamp) (d : DataFrame) :
  with_indicators close (relabel ts d) = relabel ts (with_indicators close d).
Proof. unfold with_indicators. now rewrite !setitem_relabel. Qed.

Lemma values_relabel (names : list string) (ts : list Timestamp) (d : DataFrame) :
  length ts = len d -> values names (relabel ts d) = values names d.
Proof. intros H. unfold values, len, relabel, lookup. cbn [index cols]. now rewrite H. Qed.

Lemma normalized_relabel (c : string) (ts : list Timestamp) (d : DataFrame) :
  length ts = len d ->
  normalized c (relabel ts d) =
  relabel (keep (map (row_complete (ffill (rename c "close" d))) (seq 0 (len d))) ts)
          (normalized c d).
Proof.
  intros H. unfold normalized, dropna, relabel, len. cbn [index cols ffill rename].
  rewrite H. reflexivity.
Qed.

Lemma len_with_indicators (close : Series) (d : DataFrame) :
  len (with_indicators close d) = len d.
Proof. unfold len. now rewrite index_with_indicators. Qed.

(** The call on the same columns under other row labels of the same
    number: same outcome, same indicator values, and the labels of the rows
    kept. *)
Lemma run_relabel (self : t) (d : DataFrame) (ts : list Timestamp) :
  df self = Some d ->
  length ts = len d ->
  let mask :=
    match close_cols d with
    | [] => repeat true (len d)
    | c :: _ => map (row_complete (ffill (rename c "close" d))) (seq 0 (len d))
    end in
  let other := set_df (relabel ts d) self in
  fst (preprocess_data other) = fst (preprocess_data self) /\
  processed_data (snd (preprocess_data other)) = processed_data (snd (preprocess_data self)) /\
  (fst (preprocess_data self) = Ok tt ->
   timestamps (snd (preprocess_data other)) = Some (keep mask ts)).
Proof.
  intros Hdf Hlen mask other.
  rewrite (run_eq self d Hdf), (run_eq other (relabel ts d) eq_refl).
  change (close_cols (relabel ts d)) with (close_cols d).
  subst mask. destruct (close_cols d) as [|c rest]; [repeat split; discriminate|].
  cbv zeta. rewrite normalized_relabel by exact Hlen.
  set (mask := map (row_complete (ffill (rename c "close" d))) (seq 0 (len d))).
  change (lookup "close" (relabel (keep mask ts) (normalized c d)))
    with (lookup "close" (normalized c d)).
  destruct (lookup "close" (normalized c d)) as [|close [|close' more]];
    [repeat split; discriminate | | repeat split; discriminate].
  unfold finish. cbn [fst snd processed_data timestamps set_timestamps set_processed_data].
  rewrite with_indicators_relabel. split; [reflexivity|]. split.
  - f_equal. apply values_relabel. rewrite len_with_indicators, len_normalized.
    fold mask. apply length_keep. subst mask. now rewrite length_map, length_seq.
  - intros _. reflexivity.
Qed.

Lemma keep_complete (c : string) (d : DataFrame) (ts : list Timestamp) :
  wf d = true -> complete d = true -> length ts = len d ->
  keep (map (row_complete (ffill (rename c "close" d))) (seq 0 (len d))) ts = ts.
Proof.
  intros Hwf Hc Hlen.
  pose proof (normalized_complete c (relabel ts d)) as H.
  assert (Hwf' : wf (relabel ts d) = true).
  { unfold wf, relabel, columns, len in *. cbn [cols index]. now rewrite Hlen. }
  specialize (H Hwf' Hc). rewrite normalized_relabel in H by exact Hlen.
  apply (f_equal index) in H. exact H.
Qed.

(** C9, as the code has it.  The call never inspects the row labels: with
    a frame stored, replacing its index by any list of as many labels,
    ordered or not, repeated or not, leaves the outcome of the call and
    every indicator value unchanged, and a successful call stores as
    [timestamps] the labels of the rows it kept, in the order given; on a
    well-formed frame without missing cells these are all the labels. *)
Theorem timestamps_are_not_inspected (self : t) (d : DataFrame) :
  df self = Some d ->
  exists mask,
    length mask = len d /\
    (wf d = true -> complete d = true ->
     forall ts : list Timestamp, length ts = len d -> keep mask ts = ts) /\
    forall ts, length ts = len d ->
      let other := set_df (relabel ts d) self in
      fst (preprocess_data other) = fst (preprocess_data self) /\
      processed_data (snd (preprocess_data other)) =
        processed_data (snd (preprocess_data self)) /\
      (fst (preprocess_data self) = Ok tt ->
       timestamps (snd (preprocess_data other)) = Some (keep mask ts)).
Proof.
  intros Hdf.
  exists (match close_cols d with
          | [] => repeat true (len d)
          | c :: _ => map (row_complete (ffill (rename c "close" d))) (seq 0 (len d))
          end).
  split; [|split].
  - destruct (close_cols d); [apply repeat_length | now rewrite length_map, length_seq].
  - intros Hwf Hc ts Hlen. destruct (close_cols d) as [|c rest].
    + unfold keep. clear - Hlen. revert ts Hlen.
      induction (len d) as [|n IH]; intros [|x ts] Hlen; try discriminate; [reflexivity|].
      cbn [repeat combine filter snd map fst]. f_equal. apply IH. now injection Hlen.
    + now apply keep_complete.
  - intros ts Hlen. exact (run_relabel self d ts Hdf Hlen).
Qed.

Lemma timestamps_are_not_inspected_witness :
  exists mask,
    length mask = len shuffled /\
    (wf shuffled = true -> complete shuffled = true ->
     forall ts : list Timestamp, length ts = len shuffled -> keep mask ts = ts) /\
    forall ts, length ts = len shuffled ->
      let other := set_df (relabel ts shuffled) (loaded shuffled) in
      fst (preprocess_data other) = fst (preprocess_data (loaded shuffled)) /\
      processed_data (snd (preprocess_data other)) =
        processed_data (snd (preprocess_data (loaded shuffled))) /\
      (fst (preprocess_data (loaded shuffled)) = Ok tt ->
       timestamps (snd (preprocess_data other)) = Some (keep mask ts)).
Proof.
  apply (timestamps_are_not_inspected (loaded shuffled) shuffled). reflexivity.
Defined.

(** C9 as stated fails: on three bars labelled 3, 1, 1, which fall and
    repeat, the call returns normally, stores those labels as they came
    and stores three rows of indicator values. *)
Lemma disordered_labels_are_accepted :
  index shuffled = [3; 1; 1]%Z /\
  fst (preprocess_data (loaded shuffled)) = Ok tt /\
  timestamps (snd (preprocess_data (loaded shuffled))) = Some [3; 1; 1]%Z /\
  exists rows,
    processed_data (snd (preprocess_data (loaded shuffled))) = Some rows /\
    length rows = 3%nat.
Proof.
  destruct (bars_run [3; 1; 1]%Z [1; 2; 3] eq_refl) as (Hok & Hts & Hpd).
  split; [reflexivity|]. split; [exact Hok|]. split; [exact Hts|].
  eexists. split; [exact Hpd|]. reflexivity.
Qed.

End Labels.

(** ** Calling twice on one object *)

Section Twice.
Import pd MarketData.

Lemma close_cols_setitem (n : string) (s : Series) (d : DataFrame) (c : string)
      (rest : list string) :
  close_cols d = c :: rest -> exists r, close_cols (setitem n s d) = c :: r.
Proof.
  intros H. unfold close_cols in *. rewrite columns_setitem.
  destruct (existsb (String.eqb n) (columns d)).
  - now exists rest.
  - rewrite filter_app, H. eexists. reflexivity.
Qed.

Lemma close_cols_renamed (c : string) (rest l : list string) :
  filter (contains_ci "close") l = c :: rest ->
  exists r, filter (contains_ci "close") (map (renamed c) l) = "close"%string :: r.
Proof.
  induction l as [|x l IH]; intros H; [discriminate|].
  cbn [filter map] in *. destruct (contains_ci "close" x) eqn:E.
  - injection H as Hxc _. subst x.
    assert (Hr : renamed c c = "close"%string)
      by (unfold renamed; now rewrite String.eqb_refl).
    rewrite Hr. change (contains_ci "close" "close") with true. cbv iota.
    eexists. reflexivity.
  - assert (Hx : String.eqb x c = false).
    { apply String.eqb_neq. intros ->.
      assert (Hin : In c (filter (contains_ci "close") l)) by (rewrite H; now left).
      apply filter_In in Hin. destruct Hin as [_ Hc]. congruence. }
    assert (Hr : renamed c x = x) by (unfold renamed; now rewrite Hx).
    rewrite Hr, E. now apply IH.
Qed.

Lemma close_cols_after_run (c : string) (rest : list string) (close : Series)
      (d : DataFrame) :
  close_cols d = c :: rest ->
  exists r, close_cols (with_indicators close (normalized c d)) = "close"%string :: r.
Proof.
  intros H.
  assert (H0 : exists r, close_cols (normalized c d) = "close"%string :: r).
  { unfold close_cols in *. rewrite columns_normalized. now apply (close_cols_renamed c rest). }
  unfold with_indicators. destruct H0 as (r0 & H0).
  destruct (close_cols_setitem "rolling_ma" (rolling_mean rolling_window close) _ _ _ H0)
    as (r1 & H1).
  destruct (close_cols_setitem "rsi" (rsi close) _ _ _ H1) as (r2 & H2).
  destruct (close_cols_setitem "upper_band" (upper_band close) _ _ _ H2) as (r3 & H3).
  exact (close_cols_setitem "lower_band" (lower_band close) _ _ _ H3).
Qed.

Lemma renamed_close_id (l : list string) : map (renamed "close") l = l.
Proof.
  rewrite <- (map_id l) at 2. apply map_ext. intros x. unfold renamed.
  destruct (String.eqb_spec x "close"); congruence.
Qed.

Lemma in_setitem (n : string) (s : Series) (d : DataFrame) :
  In (n, s) (cols (setitem n s d)).
Proof.
  unfold setitem. destruct (existsb (String.eqb n) (columns d)) eqn:E; cbn [cols].
  - apply existsb_exists in E. destruct E as (y & Hy & Exy).
    apply String.eqb_eq in Exy. subst y. unfold columns in Hy.
    apply in_map_iff in Hy. destruct Hy as ([k v] & Hk & Hin). cbn [fst] in Hk. subst k.
    apply in_map_iff. exists (n, v). cbn [fst]. now rewrite String.eqb_refl.
  - apply in_or_app. right. now left.
Qed.

Lemma in_setitem_other (n n' : string) (s s' : Series) (d : DataFrame) :
  n <> n' -> In (n, s) (cols d) -> In (n, s) (cols (setitem n' s' d)).
Proof.
  intros Hne Hin. unfold setitem.
  destruct (existsb (String.eqb n') (columns d)); cbn [cols].
  - apply in_map_iff. exists (n, s). cbn [fst].
    apply String.eqb_neq in Hne. now rewrite Hne.
  - apply in_or_app. now left.
Qed.

(** The first cell of the moving average is null, before and after the
    forward fill. *)
Lemma ffill_rolling_mean_head (close : Series) :
  nth 0 (ffill_series (rolling_mean rolling_window close)) NaN = NaN.
Proof.
  destruct close as [|x close]; [reflexivity|].
  unfold rolling_mean, rolling, rolling_window. cbn [length seq map].
  assert (H : (length (filter notna (window 10 0 (x :: close))) <? 10)%nat = true).
  { apply Nat.ltb_lt. unfold window. cbn [Nat.sub skipn firstn filter].
    destruct (notna x); cbn [length]; lia. }
  rewrite H. reflexivity.
Qed.

Lemma row_0_incomplete_after_run (close : Series) (d : DataFrame) :
  row_complete (ffill (rename "close" "close" (with_indicators close d))) 0 = false.
Proof.
  unfold row_complete.
  destruct (forallb _ _) eqn:E; [|reflexivity].
  rewrite forallb_forall in E.
  assert (Hin : In ("rolling_ma"%string, rolling_mean rolling_window close)
                   (cols (with_indicators close d))).
  { unfold with_indicators.
    repeat (apply in_setitem_other; [intros Heq; discriminate Heq|]).
    apply in_setitem. }
  specialize (E ("rolling_ma"%string, ffill_series (rolling_mean rolling_window close))).
  cbn [snd] in E. rewrite ffill_rolling_mean_head in E.
  assert (Hno : notna NaN = true); [|discriminate Hno]. apply E.
  unfold ffill, rename. cbn [cols]. rewrite map_map. apply in_map_iff.
  exists ("rolling_ma"%string, rolling_mean rolling_window close). now split.
Qed.

Lemma filter_drops_head (f : nat -> bool) (n : nat) :
  f 0%nat = false ->
  (length (filter (fun b => b) (map f (seq 0 n))) <= n)%nat /\
  (n <> 0%nat -> (length (filter (fun b => b) (map f (seq 0 n))) < n)%nat).
Proof.
  intros H0. destruct n as [|n]; [split; [cbn; lia | congruence]|].
  cbn [seq map filter]. rewrite H0.
  pose proof (filter_length_le (fun b : bool => b) (map f (seq 1 n))) as Hle.
  rewrite length_map, length_seq in Hle. split; [lia | intros _; lia].
Qed.

Lemma length_values (names : list string) (d : DataFrame) :
  length (values names d) = len d.
Proof. unfold values. now rewrite length_map, length_seq. Qed.

(** A second call on the object a successful call has left works on the
    frame that call stored: it succeeds, and drops at least the first of
    its rows. *)
Lemma second_run_shrinks (self self' : t) (d : DataFrame) :
  df self = Some d ->
  wf d = true ->
  preprocess_data self = (Ok tt, self') ->
  exists self'' rows rows',
    preprocess_data self' = (Ok tt, self'') /\
    processed_data self' = Some rows /\
    processed_data self'' = Some rows' /\
    (length rows' <= length rows)%nat /\
    (rows <> [] -> (length rows' < length rows)%nat).
Proof.
  intros Hdf Hwf Hrun.
  destruct (run_ok_inv self self' d Hdf Hwf Hrun)
    as (c & rest & close & Hc & Hl & Hlen & Hdf' & Hl' & Hts & Hpd).
  set (d4 := with_indicators close (normalized c d)) in *.
  destruct (close_cols_after_run c rest close d Hc) as (r & Hc'). fold d4 in Hc'.
  assert (Hone : length (lookup "close" (normalized "close" d4)) = 1%nat).
  { rewrite length_lookup, columns_normalized, renamed_close_id, <- length_lookup, Hl'.
    reflexivity. }
  rewrite (run_eq self' d4 Hdf'), Hc'. cbv zeta.
  destruct (lookup "close" (normalized "close" d4)) as [|close2 [|close2' more]];
    cbn [length] in Hone; try lia.
  eexists _, _, _. split; [reflexivity|]. split; [exact Hpd|].
  unfold finish. cbn [processed_data set_timestamps set_processed_data]. split; [reflexivity|].
  rewrite length_values, len_with_indicators, len_normalized, length_map, length_seq.
  assert (Hd4 : len d4 = length close).
  { unfold d4. now rewrite len_with_indicators. }
  rewrite Hd4.
  destruct (filter_drops_head
              (row_complete (ffill (rename "close" "close" d4))) (length close)
              (row_0_incomplete_after_run close (normalized c d))) as [Hle Hlt].
  split; [exact Hle|]. intros Hne. apply Hlt. intros H0. apply Hne. now rewrite H0.
Qed.

(** The outcome of a call depends on no field but the frame. *)
Lemma run_depends_on_df (s1 s2 : t) :
  df s1 = df s2 ->
  fst (preprocess_data s1) = fst (preprocess_data s2) /\
  df (snd (preprocess_data s1)) = df (snd (preprocess_data s2)) /\
  (fst (preprocess_data s1) = Ok tt ->
   processed_data (snd (preprocess_data s1)) = processed_data (snd (preprocess_data s2)) /\
   timestamps (snd (preprocess_data s1)) = timestamps (snd (preprocess_data s2))).
Proof.
  intros H. destruct (df s2) as [d|] eqn:H2.
  - rewrite (run_eq s1 d H), (run_eq s2 d H2).
    destruct (close_cols d) as [|c rest]; cbn [fst snd].
    + split; [reflexivity|]. split; [congruence | discriminate].
    + cbv zeta. destruct (lookup "close" (normalized c d)) as [|close [|close' more]];
        cbn [fst snd]; (split; [reflexivity|]); (split; [reflexivity|]);
        try discriminate. intros _. split; reflexivity.
  - unfold preprocess_data. cbv [bind self_df]. rewrite H, H2. cbn [fst snd].
    split; [reflexivity|]. split; [congruence | discriminate].
Qed.

(** C2, as the code has it.  The call is a function of the stored frame
    alone: two objects holding the same frame get the same outcome, the
    same stored frame and, on success, the same [processed_data] and
    [timestamps].  But the call replaces the stored frame by the normalized
    frame with the indicator columns, so a second call on the same object
    works on that frame: it succeeds, returns no more rows than the first
    and, when the first returned any row, strictly fewer. *)
Theorem run_is_function_of_stored_frame :
  (forall s1 s2 : t,
      df s1 = df s2 ->
      fst (preprocess_data s1) = fst (preprocess_data s2) /\
      df (snd (preprocess_data s1)) = df (snd (preprocess_data s2)) /\
      (fst (preprocess_data s1) = Ok tt ->
       processed_data (snd (preprocess_data s1)) =
         processed_data (snd (preprocess_data s2)) /\
       timestamps (snd (preprocess_data s1)) = timestamps (snd (preprocess_data s2)))) /\
  (forall (self self' : t) (d : DataFrame),
      df self = Some d ->
      wf d = true ->
      preprocess_data self = (Ok tt, self') ->
      exists self'' rows rows',
        preprocess_data self' = (Ok tt, self'') /\
        processed_data self' = Some rows /\
        processed_data self'' = Some rows' /\
        (length rows' <= length rows)%nat /\
        (rows <> [] -> (length rows' < length rows)%nat)).
Proof.
  split.
  - exact run_depends_on_df.
  - exact second_run_shrinks.
Qed.

Lemma run_is_function_of_stored_frame_witness :
  exists self'' rows rows',
    preprocess_data (snd (preprocess_data (loaded eleven))) = (Ok tt, self'') /\
    processed_data (snd (preprocess_data (loaded eleven))) = Some rows /\
    processed_data self'' = Some rows' /\
    (length rows' <= length rows)%nat /\
    (rows <> [] -> (length rows' < length rows)%nat).
Proof.
  apply (proj2 run_is_function_of_stored_frame (loaded eleven) _ eleven).
  - reflexivity.
  - reflexivity.
  - apply run_pair. reflexivity.
Defined.

(** C2 as stated fails: two calls in a row on the object holding the eleven
    bars both succeed, and the second stores fewer rows of indicator values
    than the first, so the two outputs differ. *)
Lemma second_call_differs :
  exists s1 s2 rows1 rows2,
    preprocess_data (loaded eleven) = (Ok tt, s1) /\
    preprocess_data s1 = (Ok tt, s2) /\
    processed_data s1 = Some rows1 /\
    processed_data s2 = Some rows2 /\
    length rows1 = 11%nat /\
    (length rows2 < 11)%nat /\
    processed_data s1 <> processed_data s2.
Proof.
  destruct (bars_run [1; 2; 3; 4; 5; 6; 7; 8; 9; 10; 11]%Z
                     [1; 2; 3; 4; 5; 6; 7; 8; 9; 10; 11] eq_refl) as (Hok & _ & Hpd).
  fold eleven in Hok, Hpd.
  destruct (second_run_shrinks (loaded eleven) _ eleven eq_refl eq_refl (run_pair _ Hok))
    as (s2 & rows & rows' & Hrun2 & Hrows & Hrows' & _ & Hlt).
  assert (Hlen : length rows = 11%nat).
  { rewrite Hpd in Hrows. injection Hrows as E. rewrite <- E. reflexivity. }
  assert (Hlt' : (length rows' < 11)%nat).
  { rewrite <- Hlen. apply Hlt. intros E. rewrite E in Hlen. discriminate Hlen. }
  exists (snd (preprocess_data (loaded eleven))), s2, rows, rows'.
  split; [now apply run_pair|]. split; [exact Hrun2|]. split; [exact Hrows|].
  split; [exact Hrows'|]. split; [exact Hlen|]. split; [exact Hlt'|].
  rewrite Hrows, Hrows'. intros E. injection E as E. rewrite E in Hlen. lia.
Qed.

End Twice.

(** ** The intraday iterator *)

Section Iterator.
Import pd IntradayData.

Lemma next_in_range (self : IntradayData.t) (d : DataFrame) (i : nat) :
  data self = Some d ->
  IntradayData.index self = Z.of_nat i ->
  (S i < len d)%nat ->
  next self =
  (Ok (row_at d i),
   IntradayData.mk (api_key self) (base_url self) (data self) (Z.of_nat (S i))).
Proof.
  intros Hd Hi Hlt. cbv [next has_next len_data bind gets ret raise modify].
  rewrite Hd, Hi.
  assert (H1 : (Z.of_nat i <? Z.of_nat (len d) - 1)%Z = true) by (apply Z.ltb_lt; lia).
  rewrite H1. cbn [negb]. cbv beta. rewrite Hd, Hi. unfold iloc.
  assert (H2 : (Z.of_nat i <? 0)%Z = false) by (apply Z.ltb_ge; lia).
  assert (H3 : (0 <=? Z.of_nat i)%Z = true) by (apply Z.leb_le; lia).
  assert (H4 : (Z.of_nat i <? Z.of_nat (len d))%Z = true) by (apply Z.ltb_lt; lia).
  rewrite H2, H3, H4. cbn [andb]. cbv beta iota. rewrite Nat2Z.id, ?Hd, ?Hi.
  do 2 f_equal. lia.
Qed.

Lemma next_exhausted (self : IntradayData.t) (d : DataFrame) (i : nat) :
  data self = Some d ->
  IntradayData.index self = Z.of_nat i ->
  (len d <= S i)%nat ->
  next self = (Raise StopIteration, self).
Proof.
  intros Hd Hi Hge. cbv [next has_next len_data bind gets ret raise].
  rewrite Hd, Hi.
  assert (H1 : (Z.of_nat i <? Z.of_nat (len d) - 1)%Z = false) by (apply Z.ltb_ge; lia).
  rewrite H1. reflexivity.
Qed.

Lemma calls_from (k : nat) (self : IntradayData.t) (d : DataFrame) (i : nat) :
  data self = Some d ->
  IntradayData.index self = Z.of_nat i ->
  (S i <= len d)%nat ->
  calls k self =
  map (fun j => Ok (row_at d j)) (seq i (Nat.min k (len d - 1 - i)))
  ++ repeat (Raise StopIteration) (k - (len d - 1 - i)).
Proof.
  revert self i. induction k as [|k IH]; intros self i Hd Hi Hle; [reflexivity|].
  cbn [calls]. destruct (Nat.lt_ge_cases (S i) (len d)) as [Hlt|Hge].
  - rewrite (next_in_range self d i Hd Hi Hlt).
    rewrite (IH _ (S i)) by (cbn [data IntradayData.index]; auto; lia).
    replace (Nat.min (S k) (len d - 1 - i)) with (S (Nat.min k (len d - 1 - S i))) by lia.
    replace (S k - (len d - 1 - i))%nat with (k - (len d - 1 - S i))%nat by lia.
    reflexivity.
  - rewrite (next_exhausted self d i Hd Hi Hge).
    rewrite (IH self i Hd Hi Hle).
    replace (len d - 1 - i)%nat with 0%nat by lia.
    rewrite !Nat.min_0_r, !Nat.sub_0_r. reflexivity.
Qed.

(** C10.  On a retrieved frame of [n >= 1] rows, [k] successive calls of
    [next] return the rows 0, 1, ..., in order for the first [n - 1] calls
    and raise [StopIteration] at every later call; [has_next] is false as
    soon as the cursor is at [n - 1], so row [n - 1] is never returned. *)
Theorem next_stops_before_last_row (key : string) (d : DataFrame) (k : nat) :
  (1 <= len d)%nat ->
  calls k (retrieved key d) =
    map (fun j => Ok (row_at d j)) (seq 0 (Nat.min k (len d - 1)))
    ++ repeat (Raise StopIteration) (k - (len d - 1)) /\
  has_next (IntradayData.mk key (base_url (retrieved key d)) (Some d) (Z.of_nat (len d - 1)))
  = (Ok false,
     IntradayData.mk key (base_url (retrieved key d)) (Some d) (Z.of_nat (len d - 1))).
Proof.
  intros Hn. split.
  - rewrite (calls_from k (retrieved key d) d 0 eq_refl eq_refl Hn).
    now rewrite Nat.sub_0_r.
  - unfold has_next, len_data, bind, gets, ret. cbn [data IntradayData.index].
    assert (H : (Z.of_nat (len d - 1) <? Z.of_nat (len d) - 1)%Z = false)
      by (apply Z.ltb_ge; lia).
    now rewrite H.
Qed.

Lemma next_stops_before_last_row_witness :
  calls 4 (retrieved "demo" MarketData.shuffled) =
  [Ok (row_at MarketData.shuffled 0); Ok (row_at MarketData.shuffled 1);
   Raise StopIteration; Raise StopIteration].
Proof.
  apply (next_stops_before_last_row "demo" MarketData.shuffled 4).
  cbn. lia.
Defined.

End Iterator.

(** * Further properties of the code *)

(** ** Forward fill and the rows dropped *)

Section Normalizer.
Import pd MarketData.

Lemma ffill_from_last (last : float) (s : Series) (i : nat) :
  (i < length s)%nat ->
  nth i (ffill_from last s) NaN =
  match filter notna (rev (firstn (S i) s)) with
  | x :: _ => x
  | [] => last
  end.
Proof.
  revert last i. induction s as [|x s IH]; intros last i Hi; [cbn [length] in Hi; lia|].
  destruct i as [|i].
  - cbn [firstn rev app filter ffill_from]. unfold notna.
    destruct (isna x); reflexivity.
  - cbn [length] in Hi. change (firstn (S (S i)) (x :: s)) with (x :: firstn (S i) s).
    cbn [rev]. rewrite filter_app. cbn [filter ffill_from].
    assert (Hi' : (i < length s)%nat) by lia.
    destruct (isna x) eqn:Ex; cbn [nth]; rewrite (IH _ i Hi'); unfold notna; rewrite Ex;
      cbn [negb]; destruct (filter (fun y => negb (isna y)) (rev (firstn (S i) s)));
      reflexivity.
Qed.

Lemma ffill_from_valid (u : Series) (last : float) (j : nat) :
  isna last = false -> (j < length u)%nat ->
  isna (nth j (ffill_from last u) NaN) = false.
Proof.
  revert last j. induction u as [|y u IHu]; intros last j Hl Hj; [cbn [length] in Hj; lia|].
  cbn [ffill_from]. cbn [length] in Hj.
  destruct (isna y) eqn:Ey; destruct j as [|j]; cbn [nth]; auto; apply IHu; auto; lia.
Qed.

Lemma isna_ffill_iff (s : Series) (i : nat) :
  (i < length s)%nat ->
  isna (nth i (ffill_series s) NaN) = true <-> (i < first_valid s)%nat.
Proof.
  unfold ffill_series. revert i.
  induction s as [|x s IH]; intros i Hi; [cbn [length] in Hi; lia|].
  cbn [ffill_from first_valid]. cbn [length] in Hi.
  destruct (isna x) eqn:Ex; destruct i as [|i]; cbn [nth].
  - split; [lia | reflexivity].
  - rewrite IH by lia. lia.
  - rewrite Ex. split; [discriminate | lia].
  - rewrite ffill_from_valid by (auto; lia). split; [discriminate | lia].
Qed.

(** X1.  Line 38.  A forward-filled column has the length of the column, and its
    cell at [i] is the last cell of the column at or before [i] that is not
    missing; it is missing only when all cells up to [i] are. *)
Theorem ffill_takes_last_valid (s : Series) (i : nat) :
  (i < length s)%nat ->
  length (ffill_series s) = length s /\
  cell (ffill_series s) i = last_valid s i /\
  (isna (cell (ffill_series s) i) = true <-> (i < first_valid s)%nat).
Proof.
  intros Hi. split; [apply length_ffill_from|]. split.
  - apply ffill_from_last. exact Hi.
  - now apply isna_ffill_iff.
Qed.

Lemma ffill_takes_last_valid_witness :
  length (ffill_series [NaN; Fin 5; NaN]) = length [NaN; Fin 5; NaN] /\
  cell (ffill_series [NaN; Fin 5; NaN]) 2 = last_valid [NaN; Fin 5; NaN] 2 /\
  (isna (cell (ffill_series [NaN; Fin 5; NaN]) 2) = true <->
   (2 < first_valid [NaN; Fin 5; NaN])%nat).
Proof.
  apply (ffill_takes_last_valid [NaN; Fin 5; NaN] 2). cbn. lia.
Defined.

Lemma keep_from (k a n : nat) {A} (l : list A) :
  length l = n ->
  keep (map (fun i => (k <=? i)%nat) (seq a n)) l = skipn (k - a) l.
Proof.
  unfold keep. revert a n. induction l as [|x l IH]; intros a [|n] Hlen; try discriminate.
  - now rewrite skipn_nil.
  - cbn [seq map combine filter snd]. injection Hlen as Hlen.
    destruct (Nat.leb_spec k a) as [Hle|Hgt].
    + cbn [map fst]. rewrite (IH (S a) n Hlen).
      replace (k - S a)%nat with 0%nat by lia. replace (k - a)%nat with 0%nat by lia.
      reflexivity.
    + rewrite (IH (S a) n Hlen).
      replace (k - a)%nat with (S (k - S a)) by lia. reflexivity.
Qed.

Lemma lead_rename (a b : string) (d : DataFrame) : lead (rename a b d) = lead d.
Proof.
  unfold lead, rename. cbn [cols]. rewrite map_map. f_equal. apply map_ext.
  intros [k v]. cbn [fst snd]. destruct (String.eqb k a); reflexivity.
Qed.

Lemma row_complete_ffill (d : DataFrame) (i : nat) :
  Forall (fun c => length (snd c) = len d) (cols d) ->
  (i < len d)%nat ->
  row_complete (ffill d) i = (lead d <=? i)%nat.
Proof.
  intros Hlen Hi. unfold row_complete, ffill, lead. cbn [cols].
  induction (cols d) as [|[k v] l IH]; [reflexivity|].
  inversion Hlen as [|? ? Hv Hl]; subst. cbn [snd] in Hv.
  cbn [map forallb fst snd list_max fold_right]. rewrite (IH Hl).
  fold (list_max (map (fun c : string * Series => first_valid (snd c)) l)).
  assert (Hn : notna (nth i (ffill_series v) NaN) = (first_valid v <=? i)%nat).
  { unfold notna. pose proof (isna_ffill_iff v i ltac:(lia)) as H.
    destruct (isna (nth i (ffill_series v) NaN)); destruct (Nat.leb_spec (first_valid v) i);
      cbn [negb]; try reflexivity.
    - assert (i < first_valid v)%nat by now apply H. lia.
    - assert (false = true) by (apply H; lia). discriminate. }
  rewrite Hn.
  destruct (Nat.leb_spec (first_valid v) i);
    destruct (Nat.leb_spec (list_max (map (fun c : string * Series => first_valid (snd c)) l)) i);
    destruct (Nat.leb_spec
                (Nat.max (first_valid v)
                   (list_max (map (fun c : string * Series => first_valid (snd c)) l))) i);
    cbn [andb]; try reflexivity; lia.
Qed.

Lemma normalized_from_lead (c : string) (d : DataFrame) :
  wf d = true ->
  normalized c d =
  mkDF (skipn (lead d) (index d))
       (map (fun col => (renamed c (fst col), skipn (lead d) (ffill_series (snd col))))
            (cols d)).
Proof.
  intros Hwf. apply wf_spec in Hwf. destruct Hwf as [_ Hlen].
  unfold normalized, dropna.
  set (D := ffill (rename c "close" d)).
  assert (HlenR : Forall (fun x => length (snd x) = len (rename c "close" d))
                         (cols (rename c "close" d))).
  { unfold rename, len in *. cbn [cols index]. apply Forall_map.
    eapply Forall_impl; [|exact Hlen]. intros [k col] H. cbn [fst snd] in *.
    destruct (String.eqb k c); exact H. }
  assert (Hmask : map (row_complete D) (seq 0 (len D)) =
                  map (fun i => (lead d <=? i)%nat) (seq 0 (len d))).
  { change (len D) with (len d). apply map_ext_in. intros i Hi. apply in_seq in Hi.
    unfold D. rewrite row_complete_ffill by (exact HlenR || (change (len (rename c "close" d)) with (len d); lia)).
    now rewrite lead_rename. }
  rewrite Hmask. change (index D) with (index d). f_equal.
  - rewrite keep_from by reflexivity. now rewrite Nat.sub_0_r.
  - unfold D, ffill, rename. cbn [cols]. rewrite !map_map.
    apply map_ext_in. intros [k v] Hin. cbn [fst snd].
    rewrite Forall_forall in Hlen. specialize (Hlen _ Hin). cbn [snd] in Hlen.
    assert (Hk : forall w : Series, length w = len d ->
                 keep (map (fun i => (lead d <=? i)%nat) (seq 0 (len d))) (ffill_series w)
                 = skipn (lead d) (ffill_series w)).
    { intros w Hw. rewrite keep_from by (unfold ffill_series; now rewrite length_ffill_from).
      now rewrite Nat.sub_0_r. }
    unfold renamed. destruct (String.eqb k c); cbn [fst snd]; now rewrite Hk.
Qed.

Lemma normalized_drops_leading_rows_aux (c : string) (d : DataFrame) :
  wf d = true ->
  Forall (fun col => length (snd col) = len (normalized c d)) (cols (normalized c d)).
Proof.
  intros Hwf. rewrite (normalized_from_lead c d Hwf). cbn [cols].
  unfold len at 1. cbn [index]. rewrite length_skipn.
  apply Forall_map, Forall_forall. intros [k v] Hin. cbn [snd].
  apply wf_spec in Hwf. destruct Hwf as [_ Hlen].
  rewrite Forall_forall in Hlen. specialize (Hlen _ Hin). cbn [snd] in Hlen.
  rewrite length_skipn. unfold ffill_series. rewrite length_ffill_from. unfold len in Hlen.
  now rewrite Hlen.
Qed.

(** X2.  Lines 35-41.  On a well-formed frame, filling forward and dropping the
    incomplete rows removes exactly the leading rows in which some column
    has not yet held a value: the index and every forward-filled column
    lose their first [lead d] entries and nothing else, the first
    close-like label becomes "close" and the other labels stay. *)
Theorem normalized_drops_leading_rows (c : string) (d : DataFrame) :
  wf d = true ->
  index (normalized c d) = skipn (lead d) (index d) /\
  cols (normalized c d) =
    map (fun col => (renamed c (fst col), skipn (lead d) (ffill_series (snd col))))
        (cols d) /\
  len (normalized c d) = (len d - lead d)%nat /\
  Forall (fun col => length (snd col) = len (normalized c d)) (cols (normalized c d)).
Proof.
  intros Hwf. rewrite (normalized_from_lead c d Hwf). cbn [index cols].
  unfold len at 1 3. cbn [index]. rewrite length_skipn.
  repeat split; try reflexivity.
  apply Forall_map, Forall_forall. intros [k v] Hin. cbn [snd].
  apply wf_spec in Hwf. destruct Hwf as [_ Hlen].
  rewrite Forall_forall in Hlen. specialize (Hlen _ Hin). cbn [snd] in Hlen.
  rewrite length_skipn. unfold ffill_series. rewrite length_ffill_from. unfold len in Hlen.
  now rewrite Hlen.
Qed.

Lemma normalized_drops_leading_rows_witness :
  index (normalized "4. close" gappy) = skipn (lead gappy) (index gappy) /\
  cols (normalized "4. close" gappy) =
    map (fun col => (renamed "4. close" (fst col),
                     skipn (lead gappy) (ffill_series (snd col))))
        (cols gappy) /\
  len (normalized "4. close" gappy) = (len gappy - lead gappy)%nat /\
  Forall (fun col => length (snd col) = len (normalized "4. close" gappy))
         (cols (normalized "4. close" gappy)).
Proof.
  apply (normalized_drops_leading_rows "4. close" gappy). reflexivity.
Defined.

(** X3.  Lines 38-41.  Whatever the frame, no cell of the frame the indicators
    are computed on is missing. *)
Theorem normalized_has_no_missing_cell (c : string) (d : DataFrame) :
  complete (normalized c d) = true.
Proof.
  unfold complete. apply forallb_forall. intros [k v] Hin. cbn [snd].
  apply forallb_forall. intros x Hx.
  assert (Hl : In v (lookup k (normalized c d))) by now apply in_lookup.
  pose proof (dropna_complete _ _ _ Hl) as Hall.
  rewrite Forall_forall in Hall. unfold notna. now rewrite (Hall x Hx).
Qed.

End Normalizer.

(** ** What a call stores *)

Section Stored.
Import pd MarketData.

Lemma lookup_unique (n : string) (col : Series) (d : DataFrame) :
  NoDup (columns d) -> In (n, col) (cols d) -> lookup n d = [col].
Proof.
  unfold lookup, columns. induction (cols d) as [|[k v] l IH]; intros Hu Hin; [contradiction|].
  cbn [map fst filter] in *. inversion Hu as [|? ? Hk Hl]; subst.
  destruct Hin as [E|Hin].
  - injection E as -> ->. rewrite String.eqb_refl. cbn [map snd]. f_equal.
    fold (lookup n (mkDF [] l)). apply (lookup_absent n (mkDF [] l)). exact Hk.
  - destruct (String.eqb_spec k n) as [->|Hne]; [|now apply IH].
    exfalso. apply Hk. apply in_map_iff. now exists (n, col).
Qed.

Lemma length_upper_band (close : Series) : length (upper_band close) = length close.
Proof.
  unfold upper_band, add, mul.
  rewrite length_zip_with, length_map, length_rolling_mean, length_rolling_std. lia.
Qed.

Lemma length_lower_band (close : Series) : length (lower_band close) = length close.
Proof.
  unfold lower_band, sub, mul.
  rewrite length_zip_with, length_map, length_rolling_mean, length_rolling_std. lia.
Qed.

Lemma lookups_with_indicators (close : Series) (d : DataFrame) :
  NoDup (columns d) ->
  lookup "rolling_ma" (with_indicators close d) = [rolling_mean rolling_window close] /\
  lookup "rsi" (with_indicators close d) = [rsi close] /\
  lookup "upper_band" (with_indicators close d) = [upper_band close] /\
  lookup "lower_band" (with_indicators close d) = [lower_band close].
Proof.
  intros Hu. unfold with_indicators.
  assert (H1 := NoDup_setitem "rolling_ma" (rolling_mean rolling_window close) d Hu).
  assert (H2 := NoDup_setitem "rsi" (rsi close) _ H1).
  assert (H3 := NoDup_setitem "upper_band" (upper_band close) _ H2).
  repeat split.
  - rewrite !lookup_setitem_ne by (intros E; discriminate E). now apply lookup_setitem_eq.
  - rewrite !lookup_setitem_ne by (intros E; discriminate E). now apply lookup_setitem_eq.
  - rewrite !lookup_setitem_ne by (intros E; discriminate E). now apply lookup_setitem_eq.
  - now apply lookup_setitem_eq.
Qed.

(** X4.  Lines 30-67.  A successful call on a well-formed frame computes its
    indicators from the leftmost column whose label contains "close": the
    stored close column is that column filled forward and cut by the
    leading rows dropped, the stored timestamps are the index cut the same
    way, and row [i] of [processed_data] holds cell [i] of the moving
    average, the RSI and the two bands of that column. *)
Theorem indicators_come_from_first_close_column (self self' : t) (d : DataFrame) :
  df self = Some d ->
  wf d = true ->
  preprocess_data self = (Ok tt, self') ->
  exists c rest col d' rows,
    close_cols d = c :: rest /\
    lookup c d = [col] /\
    df self' = Some d' /\
    let close := skipn (lead d) (ffill_series col) in
    lookup "close" d' = [close] /\
    timestamps self' = Some (skipn (lead d) (index d)) /\
    processed_data self' = Some rows /\
    length rows = (len d - lead d)%nat /\
    forall i, (i < len d - lead d)%nat ->
      nth i rows [] =
      [cell (rolling_mean rolling_window close) i; cell (rsi close) i;
       cell (upper_band close) i; cell (lower_band close) i].
Proof.
  intros Hdf Hwf Hrun.
  destruct (run_ok_inv self self' d Hdf Hwf Hrun)
    as (c & rest & close & Hc & Hl & Hlen & Hdf' & Hl' & Hts & Hpd).
  pose proof (normalized_from_lead c d Hwf) as Hn.
  assert (Hcin : In c (columns d)).
  { assert (H : In c (close_cols d)) by (rewrite Hc; now left).
    unfold close_cols in H. now apply filter_In in H. }
  unfold columns in Hcin. apply in_map_iff in Hcin.
  destruct Hcin as ([k col] & Hk & Hin). cbn [fst] in Hk. subst k.
  assert (Hu : NoDup (columns d)) by (apply wf_spec in Hwf; tauto).
  assert (Hclose : close = skipn (lead d) (ffill_series col)).
  { assert (H : In (skipn (lead d) (ffill_series col)) (lookup "close" (normalized c d))).
    { apply in_lookup. rewrite Hn. cbn [cols]. apply in_map_iff. exists (c, col).
      cbn [fst snd]. unfold renamed. rewrite String.eqb_refl. now split. }
    rewrite Hl in H. destruct H as [H|[]]. exact H. }
  assert (Hlen' : length close = (len d - lead d)%nat).
  { rewrite Hlen, Hn. unfold len. cbn [index]. now rewrite length_skipn. }
  subst close.
  exists c, rest, col, (with_indicators (skipn (lead d) (ffill_series col)) (normalized c d)).
  eexists. split; [exact Hc|]. split; [now apply lookup_unique|]. split; [exact Hdf'|].
  cbv zeta. split; [exact Hl'|]. split; [rewrite Hts, Hn; reflexivity|].
  split; [exact Hpd|]. split; [now rewrite length_map, length_seq|].
  intros i Hi. rewrite Hlen'. now rewrite nth_map_seq.
Qed.

Lemma indicators_come_from_first_close_column_witness :
  exists c rest col d' rows,
    close_cols gappy = c :: rest /\
    lookup c gappy = [col] /\
    df (snd (preprocess_data (loaded gappy))) = Some d' /\
    let close := skipn (lead gappy) (ffill_series col) in
    lookup "close" d' = [close] /\
    timestamps (snd (preprocess_data (loaded gappy))) = Some (skipn (lead gappy) (index gappy)) /\
    processed_data (snd (preprocess_data (loaded gappy))) = Some rows /\
    length rows = (len gappy - lead gappy)%nat /\
    forall i, (i < len gappy - lead gappy)%nat ->
      nth i rows [] =
      [cell (rolling_mean rolling_window close) i; cell (rsi close) i;
       cell (upper_band close) i; cell (lower_band close) i].
Proof.
  apply (indicators_come_from_first_close_column (loaded gappy) _ gappy).
  - reflexivity.
  - reflexivity.
  - apply run_pair. reflexivity.
Defined.

Lemma Forall_setitem (P : string * Series -> Prop) (n : string) (s : Series)
      (d : DataFrame) :
  Forall P (cols d) -> P (n, s) -> Forall P (cols (setitem n s d)).
Proof.
  intros Hall Hn. unfold setitem.
  destruct (existsb (String.eqb n) (columns d)); cbn [cols].
  - apply Forall_map. eapply Forall_impl; [|exact Hall].
    intros [k v] H. cbn [fst]. destruct (String.eqb k n); assumption.
  - apply Forall_app. split; [exact Hall | now constructor].
Qed.

(** X5.  Lines 45-67.  A successful call on a well-formed frame stores a
    well-formed frame again (unique labels, every column as long as the
    index), one timestamp and one row of four cells per row of that frame,
    and cell [k] of row [i] is cell [i] of the stored column labelled
    "rolling_ma", "rsi", "upper_band", "lower_band" for [k] = 0, 1, 2, 3. *)
Theorem stored_frame_and_array_agree (self self' : t) (d : DataFrame) :
  df self = Some d ->
  wf d = true ->
  preprocess_data self = (Ok tt, self') ->
  exists d' rows,
    df self' = Some d' /\
    wf d' = true /\
    timestamps self' = Some (index d') /\
    processed_data self' = Some rows /\
    length rows = len d' /\
    Forall (fun row => length row = 4%nat) rows /\
    forall k name, nth_error indicator_columns k = Some name ->
      exists col, lookup name d' = [col] /\ length col = len d' /\
        forall i, (i < len d')%nat -> entry rows i k = cell col i.
Proof.
  intros Hdf Hwf Hrun.
  destruct (run_ok_inv self self' d Hdf Hwf Hrun)
    as (c & rest & close & Hc & Hl & Hlen & Hdf' & Hl' & Hts & Hpd).
  destruct (normalized_wf c d close Hwf Hl) as [Hu _].
  destruct (lookups_with_indicators close (normalized c d) Hu) as (L0 & L1 & L2 & L3).
  assert (Hlen4 : len (with_indicators close (normalized c d)) = length close)
    by (rewrite len_with_indicators; now symmetry).
  exists (with_indicators close (normalized c d)). eexists.
  split; [exact Hdf'|]. split; [|split; [|split; [exact Hpd|split; [|split]]]].
  - apply wf_spec. split; [now apply NoDup_with_indicators|].
    rewrite Hlen4. unfold with_indicators.
    assert (H0 : Forall (fun col : string * Series => length (snd col) = length close)
                        (cols (normalized c d))).
    { rewrite Hlen. exact (normalized_drops_leading_rows_aux c d Hwf). }
    repeat apply Forall_setitem; try exact H0; cbn [snd].
    + apply length_rolling_mean.
    + apply length_rsi.
    + apply length_upper_band.
    + apply length_lower_band.
  - rewrite index_with_indicators. exact Hts.
  - now rewrite length_map, length_seq, Hlen4.
  - apply Forall_map, Forall_forall. intros i _. reflexivity.
  - intros k name Hk. rewrite Hlen4.
    destruct k as [|[|[|[|k]]]]; cbn in Hk; try (destruct k; discriminate Hk);
      injection Hk as <-; eexists; (split; [eassumption|]); split;
      try (intros i Hi; now rewrite entry_rows).
    + apply length_rolling_mean.
    + apply length_rsi.
    + apply length_upper_band.
    + apply length_lower_band.
Qed.

Lemma stored_frame_and_array_agree_witness :
  exists d' rows,
    df (snd (preprocess_data (loaded gappy))) = Some d' /\
    wf d' = true /\
    timestamps (snd (preprocess_data (loaded gappy))) = Some (index d') /\
    processed_data (snd (preprocess_data (loaded gappy))) = Some rows /\
    length rows = len d' /\
    Forall (fun row => length row = 4%nat) rows /\
    forall k name, nth_error indicator_columns k = Some name ->
      exists col, lookup name d' = [col] /\ length col = len d' /\
        forall i, (i < len d')%nat -> entry rows i k = cell col i.
Proof.
  apply (stored_frame_and_array_agree (loaded gappy) _ gappy).
  - reflexivity.
  - reflexivity.
  - apply run_pair. reflexivity.
Defined.

Lemma columns_setitem_new (n : string) (s : Series) (d : DataFrame) :
  ~ In n (columns d) -> columns (setitem n s d) = columns d ++ [n].
Proof.
  intros H. rewrite columns_setitem.
  apply uniqueb_not_in in H. now rewrite H.
Qed.

Lemma columns_with_indicators_fresh (close : Series) (d : DataFrame) :
  (forall name, In name indicator_columns -> ~ In name (columns d)) ->
  columns (with_indicators close d) = columns d ++ indicator_columns.
Proof.
  intros Hnew. unfold with_indicators.
  set (d1 := setitem "rolling_ma" (rolling_mean rolling_window close) d).
  set (d2 := setitem "rsi" (rsi close) d1).
  set (d3 := setitem "upper_band" (upper_band close) d2).
  assert (E1 : columns d1 = columns d ++ ["rolling_ma"%string]).
  { apply columns_setitem_new, Hnew. cbn. tauto. }
  assert (E2 : columns d2 = columns d ++ ["rolling_ma"; "rsi"]%string).
  { unfold d2. rewrite columns_setitem_new, E1, <- app_assoc; [reflexivity|].
    rewrite E1. intros Hin. apply in_app_or in Hin.
    destruct Hin as [Hin|[Hin|[]]]; [|discriminate Hin].
    revert Hin. apply Hnew. cbn. tauto. }
  assert (E3 : columns d3 = columns d ++ ["rolling_ma"; "rsi"; "upper_band"]%string).
  { unfold d3. rewrite columns_setitem_new, E2, <- app_assoc; [reflexivity|].
    rewrite E2. intros Hin. apply in_app_or in Hin.
    destruct Hin as [Hin|[Hin|[Hin|[]]]]; try discriminate Hin.
    revert Hin. apply Hnew. cbn. tauto. }
  rewrite columns_setitem_new, E3, <- app_assoc; [reflexivity|].
  rewrite E3. intros Hin. apply in_app_or in Hin.
  destruct Hin as [Hin|[Hin|[Hin|[Hin|[]]]]]; try discriminate Hin.
  revert Hin. apply Hnew. cbn. tauto.
Qed.

(** X6.  Lines 35-63.  When the frame has no column labelled like an indicator, a
    successful call keeps the columns in their order, the first close-like
    label turned into "close", and appends "rolling_ma", "rsi",
    "upper_band" and "lower_band" in this order. *)
Theorem indicator_columns_are_appended (self self' : t) (d : DataFrame) :
  df self = Some d ->
  wf d = true ->
  (forall name, In name indicator_columns -> ~ In name (columns d)) ->
  preprocess_data self = (Ok tt, self') ->
  exists c rest d',
    close_cols d = c :: rest /\
    df self' = Some d' /\
    columns d' = map (renamed c) (columns d) ++ indicator_columns.
Proof.
  intros Hdf Hwf Hnew Hrun.
  destruct (run_ok_inv self self' d Hdf Hwf Hrun)
    as (c & rest & close & Hc & Hl & Hlen & Hdf' & Hl' & Hts & Hpd).
  exists c, rest, (with_indicators close (normalized c d)).
  split; [exact Hc|]. split; [exact Hdf'|].
  assert (Hfresh : forall name, In name indicator_columns ->
                   ~ In name (map (renamed c) (columns d))).
  { intros name Hin Hm. apply in_map_iff in Hm. destruct Hm as (x & Hx & Hxin).
    unfold renamed in Hx. destruct (String.eqb x c).
    - subst name. cbn in Hin. repeat (destruct Hin as [Hin|Hin]; [discriminate Hin|]).
      contradiction.
    - subst x. exact (Hnew name Hin Hxin). }
  rewrite columns_with_indicators_fresh, columns_normalized; [reflexivity|].
  intros name Hin. rewrite columns_normalized. now apply Hfresh.
Qed.

Lemma indicator_columns_are_appended_witness :
  exists c rest d',
    close_cols gappy = c :: rest /\
    df (snd (preprocess_data (loaded gappy))) = Some d' /\
    columns d' = map (renamed c) (columns gappy) ++ indicator_columns.
Proof.
  apply (indicator_columns_are_appended (loaded gappy) _ gappy).
  - reflexivity.
  - reflexivity.
  - intros name [<-|[<-|[<-|[<-|[]]]]] [H|[H|[]]]; discriminate H.
  - apply run_pair. reflexivity.
Defined.

(** X7.  Lines 28-67.  Whatever the object holds and however the call ends, it
    leaves [api_key], [interval], [symbol] and [raw_data] as they were; and
    on an object that holds no frame yet it raises [AttributeError] and
    changes no field at all. *)
Theorem call_keeps_request_fields (self : t) :
  api_key (snd (preprocess_data self)) = api_key self /\
  interval (snd (preprocess_data self)) = interval self /\
  symbol (snd (preprocess_data self)) = symbol self /\
  raw_data (snd (preprocess_data self)) = raw_data self /\
  (df self = None ->
   exists msg, preprocess_data self = (Raise (AttributeError msg), self)).
Proof.
  destruct (df self) as [d|] eqn:Hdf.
  - rewrite (run_eq self d Hdf).
    destruct (close_cols d) as [|c rest]; [repeat split; discriminate|].
    cbv zeta. destruct (lookup "close" (normalized c d)) as [|close [|close' more]];
      repeat split; discriminate.
  - unfold preprocess_data. cbv [bind self_df]. rewrite Hdf. cbn [snd].
    repeat split. intros _. eexists. reflexivity.
Qed.

Lemma count_two (c : string) (l : list string) :
  c <> "close"%string -> In c l -> In "close"%string l ->
  (2 <= length (filter (fun x => String.eqb x "close") (map (renamed c) l)))%nat.
Proof.
  intros Hne. induction l as [|x l IH]; intros Hc Hcl; [contradiction|].
  cbn [map filter].
  assert (Hrc : renamed c c = "close"%string)
    by (unfold renamed; now rewrite String.eqb_refl).
  assert (Hrcl : renamed c "close" = "close"%string).
  { unfold renamed. destruct (String.eqb "close" c); reflexivity. }
  assert (Hmap : forall y, In y l -> In (renamed c y) (map (renamed c) l))
    by (intros y Hy; now apply in_map).
  destruct Hc as [->|Hc]; destruct Hcl as [E|Hcl]; try congruence.
  - rewrite Hrc, String.eqb_refl. cbn [length].
    pose proof (Hmap _ Hcl) as Hm. rewrite Hrcl in Hm.
    pose proof (count_in "close" _ Hm) as H. lia.
  - subst x. rewrite Hrcl, String.eqb_refl. cbn [length].
    pose proof (Hmap _ Hc) as Hm. rewrite Hrc in Hm.
    pose proof (count_in "close" _ Hm) as H. lia.
  - specialize (IH Hc Hcl).
    destruct (String.eqb (renamed c x) "close"); cbn [length]; lia.
Qed.

(** X8.  Lines 30-45.  When the leftmost close-like label is not "close" itself
    and another column is labelled "close", the renaming makes two columns
    of that label and the call fails at line 45 with an error other than
    the missing-column one; by then the stored frame has been replaced
    by the renamed, filled and cut frame, while [processed_data] and
    [timestamps] are as before. *)
Theorem second_close_column_breaks_call (self : t) (d : DataFrame) (c : string)
        (rest : list string) :
  df self = Some d ->
  close_cols d = c :: rest ->
  c <> "close"%string ->
  In "close"%string (columns d) ->
  exists e,
    preprocess_data self = (Raise e, set_df (normalized c d) self) /\
    e <> missing_close /\
    df (set_df (normalized c d) self) = Some (normalized c d) /\
    processed_data (set_df (normalized c d) self) = processed_data self /\
    timestamps (set_df (normalized c d) self) = timestamps self.
Proof.
  intros Hdf Hc Hne Hcl.
  assert (Hcin : In c (columns d)).
  { assert (H : In c (close_cols d)) by (rewrite Hc; now left).
    unfold close_cols in H. now apply filter_In in H. }
  pose proof (count_two c (columns d) Hne Hcin Hcl) as H2.
  rewrite <- columns_normalized, <- length_lookup in H2.
  rewrite (run_eq self d Hdf), Hc. cbv zeta.
  destruct (lookup "close" (normalized c d)) as [|s1 [|s2 more]];
    cbn [length] in H2; try lia.
  eexists. split; [reflexivity|]. split; [|repeat split].
  unfold missing_close. intros E. discriminate E.
Qed.

Lemma second_close_column_breaks_call_witness :
  exists e,
    preprocess_data (loaded two_closes) =
      (Raise e, set_df (normalized "Adj Close" two_closes) (loaded two_closes)) /\
    e <> missing_close /\
    df (set_df (normalized "Adj Close" two_closes) (loaded two_closes)) =
      Some (normalized "Adj Close" two_closes) /\
    processed_data (set_df (normalized "Adj Close" two_closes) (loaded two_closes)) =
      processed_data (loaded two_closes) /\
    timestamps (set_df (normalized "Adj Close" two_closes) (loaded two_closes)) =
      timestamps (loaded two_closes).
Proof.
  apply (second_close_column_breaks_call (loaded two_closes) two_closes "Adj Close"
           ["close"%string]).
  - reflexivity.
  - reflexivity.
  - intros E. discriminate E.
  - cbn. tauto.
Defined.

End Stored.

(** ** More on the RSI and the bands *)

Section Indicators.
Import pd MarketData.

Lemma call_keeps_request_fields_witness :
  exists msg, preprocess_data (init "demo") = (Raise (AttributeError msg), init "demo").
Proof.
  apply (call_keeps_request_fields (init "demo")). reflexivity.
Defined.

Lemma Rmean_period (xs : list R) (i : nat) (l : list R) :
  length l = length xs -> (period - 1 <= i < length xs)%nat ->
  Rmean (window period i l) = Rsum (window period i l) / 14.
Proof.
  intros Hlen Hi. unfold Rmean. rewrite length_window by lia.
  replace (Nat.min (S i) period) with 14%nat by (unfold period in *; lia).
  reflexivity.
Qed.

(** From index 13 on, off a flat period, the RSI cell is the share of the
    rises in the total movement of the period, in percent. *)
Lemma rsi_closed_form (xs : list R) (i : nat) :
  (period - 1 <= i < length xs)%nat ->
  let G := Rsum (window period i (Rgain xs)) in
  let L := Rsum (window period i (Rloss xs)) in
  0 <= G /\ 0 <= L /\
  (0 < G + L -> cell (rsi (map Fin xs)) i = Fin (100 * G / (G + L))).
Proof.
  intros Hi G L.
  assert (HG : 0 <= G) by (apply Rsum_nonneg, Forall_window, Rgain_nonneg).
  assert (HL : 0 <= L) by (apply Rsum_nonneg, Forall_window, Rloss_nonneg).
  split; [exact HG|]. split; [exact HL|]. intros Hpos.
  destruct (averages_from_13 xs i Hi) as (g & l & Hg & Hg0 & Hl & Hl0 & Eg & El).
  rewrite (Rmean_period xs) in Eg by (apply length_Rgain || exact Hi).
  rewrite (Rmean_period xs) in El by (apply length_Rloss || exact Hi).
  fold G in Eg. fold L in El.
  rewrite cell_rsi by (rewrite length_map; lia). rewrite Hg, Hl.
  destruct (Req_dec_T L 0) as [EL|NL].
  - assert (El0 : l = 0) by (rewrite El, EL; lra). rewrite El0.
    rewrite rsi_of_no_loss by (rewrite Eg; lra). f_equal. rewrite EL. field. lra.
  - rewrite rsi_of_ratio by (rewrite ?Eg, ?El; lra). f_equal.
    rewrite Eg, El. field. repeat split; lra.
Qed.

(** A period without a rise and with at least one fall: RSI 0. *)
Lemma rsi_no_rise (xs : list R) (i : nat) :
  (period - 1 <= i < length xs)%nat ->
  (forall j, (i - period <= j < i)%nat -> nth (S j) xs 0 <= nth j xs 0) ->
  (exists j, (i - period <= j < i)%nat /\ nth (S j) xs 0 < nth j xs 0) ->
  cell (rsi (map Fin xs)) i = Fin 0.
Proof.
  intros [Hlo Hhi] Hdown (j0 & Hj0 & Hfall).
  destruct (rsi_closed_form xs i (conj Hlo Hhi)) as (HG & HL & Hrsi).
  assert (Hi' : (i < length (Rloss xs))%nat) by now rewrite length_Rloss.
  assert (Hi'' : (i < length (Rgain xs))%nat) by now rewrite length_Rgain.
  assert (EG : Rsum (window period i (Rgain xs)) = 0).
  { apply Rsum_all_zero, Forall_forall. intros x Hx.
    apply (in_window period i (Rgain xs) 0 x Hi'') in Hx. destruct Hx as (j & Hj & ->).
    destruct j as [|j].
    - destruct xs; [cbn [length] in Hhi; lia | reflexivity].
    - rewrite nth_Rgain by lia.
      assert (nth (S j) xs 0 <= nth j xs 0) by (apply Hdown; unfold period in *; lia).
      rewrite Rltb_false by lra. reflexivity. }
  assert (PL : 0 < Rsum (window period i (Rloss xs))).
  { assert (Hne : Rsum (window period i (Rloss xs)) <> 0); [|lra]. intros E.
    apply Rsum_zero in E; [|apply Forall_window, Rloss_nonneg].
    rewrite Forall_forall in E.
    assert (Hin : In (nth (S j0) (Rloss xs) 0) (window period i (Rloss xs))).
    { apply (in_window period i (Rloss xs) 0 _ Hi'). exists (S j0).
      split; [unfold period in *; lia | reflexivity]. }
    apply E in Hin. rewrite nth_Rloss in Hin by lia.
    rewrite Rltb_true in Hin by lra. lra. }
  rewrite Hrsi by lra. f_equal. rewrite EG. field. lra.
Qed.

(** X9.  Lines 49-56.  After a successful call on a well-formed frame of finite
    cells, at an index from 13 on whose trailing period is not flat the RSI
    cell is [100 * G / (G + L)], with [G] the sum of the rises and [L] the
    sum of the falls between consecutive closes of the period; it is 0 at an
    index whose period holds falls only. *)
Theorem rsi_is_share_of_rises (self self' : t) (d : DataFrame) :
  df self = Some d ->
  wf d = true ->
  finite_cells d = true ->
  preprocess_data self = (Ok tt, self') ->
  exists d' xs rows,
    df self' = Some d' /\
    lookup "close" d' = [map Fin xs] /\
    processed_data self' = Some rows /\
    (forall i, (period - 1 <= i < length xs)%nat ->
       let G := Rsum (window period i (Rgain xs)) in
       let L := Rsum (window period i (Rloss xs)) in
       0 < G + L -> entry rows i 1 = Fin (100 * G / (G + L))) /\
    (forall i, (period - 1 <= i < length xs)%nat ->
       (forall j, (i - period <= j < i)%nat -> nth (S j) xs 0 < nth j xs 0) ->
       entry rows i 1 = Fin 0).
Proof.
  intros Hdf Hwf Hfin Hrun.
  destruct (run_finite_inv self self' d Hdf Hwf Hfin Hrun)
    as (d' & xs & rows & Hdf' & Hl & Hts & Hlen' & Hpd & Hlen & Hrows).
  exists d', xs, rows. split; [exact Hdf'|]. split; [exact Hl|]. split; [exact Hpd|]. split.
  - intros i Hi G L Hpos. destruct (Hrows i (proj2 Hi)) as (_ & -> & _).
    now apply rsi_closed_form.
  - intros i Hi Hdown. destruct (Hrows i (proj2 Hi)) as (_ & -> & _).
    apply rsi_no_rise; [exact Hi | |].
    + intros j Hj. left. now apply Hdown.
    + exists (i - 1)%nat. unfold period in *.
      assert (Hj : (i - 14 <= i - 1 < i)%nat) by lia. split; [exact Hj|].
      replace (S (i - 1)) with i by lia.
      specialize (Hdown (i - 1)%nat Hj). now replace (S (i - 1)) with i in Hdown by lia.
Qed.

Lemma rsi_is_share_of_rises_witness :
  exists d' xs rows,
    df (snd (preprocess_data (loaded fifteen))) = Some d' /\
    lookup "close" d' = [map Fin xs] /\
    processed_data (snd (preprocess_data (loaded fifteen))) = Some rows /\
    (forall i, (period - 1 <= i < length xs)%nat ->
       let G := Rsum (window period i (Rgain xs)) in
       let L := Rsum (window period i (Rloss xs)) in
       0 < G + L -> entry rows i 1 = Fin (100 * G / (G + L))) /\
    (forall i, (period - 1 <= i < length xs)%nat ->
       (forall j, (i - period <= j < i)%nat -> nth (S j) xs 0 < nth j xs 0) ->
       entry rows i 1 = Fin 0).
Proof.
  apply (rsi_is_share_of_rises (loaded fifteen) _ fifteen).
  - reflexivity.
  - reflexivity.
  - reflexivity.
  - apply run_pair. reflexivity.
Defined.

Lemma Rsample_std_nonneg (l : list R) : 0 <= Rsample_std l.
Proof. unfold Rsample_std. apply sqrt_pos. Qed.

Lemma Rsample_std_zero_iff (l : list R) :
  (2 <= length l)%nat ->
  Rsample_std l = 0 <-> (forall x, In x l -> x = Rmean l).
Proof.
  intros Hl. unfold Rsample_std.
  set (S := Rsum (map (fun x => (x - Rmean l) * (x - Rmean l)) l)).
  assert (Hd : 0 < IZR (Z.of_nat (length l)) - 1).
  { assert (2 <= IZR (Z.of_nat (length l))) by (apply IZR_le; lia). lra. }
  assert (Hsq : Forall (fun y => 0 <= y) (map (fun x => (x - Rmean l) * (x - Rmean l)) l)).
  { apply Forall_map, Forall_forall. intros x _. cbv beta.
    generalize (x - Rmean l). intros y. nra. }
  assert (HS : 0 <= S) by now apply Rsum_nonneg.
  assert (Hq : 0 <= S / (IZR (Z.of_nat (length l)) - 1)).
  { apply Rmult_le_pos; [exact HS|]. left. now apply Rinv_0_lt_compat. }
  split.
  - intros H0. apply sqrt_eq_0 in H0; [|exact Hq].
    assert (ES : S = 0).
    { apply Rmult_integral in H0. destruct H0 as [H0|H0]; [exact H0|].
      pose proof (Rinv_0_lt_compat _ Hd). lra. }
    pose proof (Rsum_zero _ Hsq ES) as Hall. rewrite Forall_forall in Hall.
    intros x Hx. specialize (Hall ((x - Rmean l) * (x - Rmean l))).
    assert (Hz : (x - Rmean l) * (x - Rmean l) = 0)
      by (apply Hall, in_map_iff; now exists x).
    apply Rmult_integral in Hz. lra.
  - intros Hall.
    assert (ES : S = 0).
    { apply Rsum_all_zero, Forall_map, Forall_forall. intros x Hx. cbv beta.
      rewrite (Hall x Hx). lra. }
    rewrite ES. unfold Rdiv. rewrite Rmult_0_l. apply sqrt_0.
Qed.

(** X10.  Lines 45, 60-63.  After a successful call on a well-formed frame of
    finite cells, at every index from 9 on the moving average lies between
    the lower and the upper band and is their midpoint, and the two bands
    coincide exactly when the ten closes of the window all equal the moving
    average. *)
Theorem bands_bracket_the_average (self self' : t) (d : DataFrame) :
  df self = Some d ->
  wf d = true ->
  finite_cells d = true ->
  preprocess_data self = (Ok tt, self') ->
  exists d' xs rows,
    df self' = Some d' /\
    lookup "close" d' = [map Fin xs] /\
    processed_data self' = Some rows /\
    forall i, (rolling_window - 1 <= i < length xs)%nat ->
      exists lo ma up,
        entry rows i 3 = Fin lo /\ entry rows i 0 = Fin ma /\ entry rows i 2 = Fin up /\
        lo <= ma <= up /\
        ma = (lo + up) / 2 /\
        (lo = up <->
         forall x, In x (firstn rolling_window (skipn (i - (rolling_window - 1)) xs)) ->
                   x = ma).
Proof.
  intros Hdf Hwf Hfin Hrun.
  destruct (run_finite_inv self self' d Hdf Hwf Hfin Hrun)
    as (d' & xs & rows & Hdf' & Hl & Hts & Hlen' & Hpd & Hlen & Hrows).
  exists d', xs, rows. split; [exact Hdf'|]. split; [exact Hl|]. split; [exact Hpd|].
  intros i [Hlo Hhi]. destruct (Hrows i Hhi) as (-> & _ & -> & ->).
  destruct (bands_Fin xs i Hhi) as [-> ->].
  rewrite cell_rolling_mean_Fin by (unfold rolling_window; lia || exact Hhi).
  rewrite window_full by exact Hlo.
  set (w := firstn rolling_window (skipn (i - (rolling_window - 1)) xs)).
  assert (Hw : length w = 10%nat).
  { unfold w, rolling_window in *. rewrite length_firstn, length_skipn. lia. }
  destruct (Nat.ltb_spec (S i) rolling_window); [unfold rolling_window in *; lia|].
  destruct (Nat.ltb_spec i (rolling_window - 1)); [lia|].
  pose proof (Rsample_std_nonneg w) as Hsd.
  pose proof (Rsample_std_zero_iff w ltac:(lia)) as Hz.
  eexists _, _, _. split; [reflexivity|]. split; [reflexivity|]. split; [reflexivity|].
  unfold std_multiplier. split; [lra|]. split; [lra|].
  rewrite <- Hz. split; intros Heq; lra.
Qed.

Lemma bands_bracket_the_average_witness :
  exists d' xs rows,
    df (snd (preprocess_data (loaded eleven))) = Some d' /\
    lookup "close" d' = [map Fin xs] /\
    processed_data (snd (preprocess_data (loaded eleven))) = Some rows /\
    forall i, (rolling_window - 1 <= i < length xs)%nat ->
      exists lo ma up,
        entry rows i 3 = Fin lo /\ entry rows i 0 = Fin ma /\ entry rows i 2 = Fin up /\
        lo <= ma <= up /\
        ma = (lo + up) / 2 /\
        (lo = up <->
         forall x, In x (firstn rolling_window (skipn (i - (rolling_window - 1)) xs)) ->
                   x = ma).
Proof.
  apply (bands_bracket_the_average (loaded eleven) _ eleven).
  - reflexivity.
  - reflexivity.
  - reflexivity.
  - apply run_pair. reflexivity.
Defined.

End Indicators.

(** ** More on the intraday iterator *)

Section Cursor.
Import pd IntradayData.

Lemma calls_from_any (k : nat) (self : IntradayData.t) (d : DataFrame) (i : nat) :
  data self = Some d ->
  IntradayData.index self = Z.of_nat i ->
  calls k self =
    map (fun j => Ok (row_at d j)) (seq i (Nat.min k (len d - 1 - i)))
    ++ repeat (Raise StopIteration) (k - (len d - 1 - i)) /\
  after k self =
    IntradayData.mk (api_key self) (base_url self) (Some d)
                    (Z.of_nat (i + Nat.min k (len d - 1 - i))).
Proof.
  revert self i. induction k as [|k IH]; intros self i Hd Hi.
  - split; [reflexivity|]. cbn [after]. rewrite Nat.min_0_l, Nat.add_0_r.
    destruct self as [a b dat ix]. cbn [data IntradayData.index api_key base_url] in *.
    now subst.
  - cbn [calls after]. destruct (Nat.lt_ge_cases (S i) (len d)) as [Hlt|Hge].
    + rewrite (next_in_range self d i Hd Hi Hlt). cbn [snd].
      destruct (IH (IntradayData.mk (api_key self) (base_url self) (data self)
                                    (Z.of_nat (S i))) (S i) Hd eq_refl) as [Hc Ha].
      rewrite Hc, Ha. cbn [api_key base_url].
      replace (Nat.min (S k) (len d - 1 - i)) with (S (Nat.min k (len d - 1 - S i))) by lia.
      replace (S k - (len d - 1 - i))%nat with (k - (len d - 1 - S i))%nat by lia.
      split; [reflexivity|]. do 2 f_equal. lia.
    + rewrite (next_exhausted self d i Hd Hi Hge). cbn [snd].
      destruct (IH self i Hd Hi) as [Hc Ha]. rewrite Hc, Ha.
      replace (len d - 1 - i)%nat with 0%nat by lia.
      rewrite !Nat.min_0_r, !Nat.sub_0_r. split; reflexivity.
Qed.

(** X11.  Lines 121-131.  On any retrieved frame, the empty one included, the
    calls of [next] never raise an [IndexError] and never touch the frame:
    after [k] calls the object still holds the same frame and key and its
    cursor is at [min k (n - 1)], so it never passes the last row; on a
    frame of at most one row every call raises [StopIteration]. *)
Theorem cursor_stays_below_last_row (key : string) (d : DataFrame) (k : nat) :
  after k (retrieved key d) =
    IntradayData.mk key (base_url (retrieved key d)) (Some d)
                    (Z.of_nat (Nat.min k (len d - 1))) /\
  (forall r, In r (calls k (retrieved key d)) ->
     r = Raise StopIteration \/ exists j, (j < len d - 1)%nat /\ r = Ok (row_at d j)) /\
  ((len d <= 1)%nat -> calls k (retrieved key d) = repeat (Raise StopIteration) k).
Proof.
  destruct (calls_from_any k (retrieved key d) d 0 eq_refl eq_refl) as [Hc Ha].
  rewrite Nat.sub_0_r in Hc, Ha. split; [exact Ha|]. split.
  - intros r Hr. rewrite Hc in Hr. apply in_app_or in Hr. destruct Hr as [Hr|Hr].
    + right. apply in_map_iff in Hr. destruct Hr as (j & <- & Hj).
      apply in_seq in Hj. exists j. split; [lia | reflexivity].
    + left. now apply repeat_spec in Hr.
  - intros Hle. rewrite Hc. replace (len d - 1)%nat with 0%nat by lia.
    now rewrite Nat.min_0_r, Nat.sub_0_r.
Qed.

(** X12.  Lines 121-131.  With a frame stored and the cursor not negative,
    [has_next] changes nothing, and [next] returns the row under the cursor
    and moves the cursor by one exactly when [has_next] answers true;
    otherwise it raises [StopIteration] and changes nothing. *)
Theorem has_next_predicts_next (self : IntradayData.t) (d : DataFrame) :
  data self = Some d ->
  (0 <= IntradayData.index self)%Z ->
  let more := (IntradayData.index self <? Z.of_nat (len d) - 1)%Z in
  has_next self = (Ok more, self) /\
  next self =
    if more
    then (Ok (row_at d (Z.to_nat (IntradayData.index self))),
          IntradayData.mk (api_key self) (base_url self) (data self)
                          (IntradayData.index self + 1))
    else (Raise StopIteration, self).
Proof.
  intros Hd Hix more.
  assert (Hi : IntradayData.index self = Z.of_nat (Z.to_nat (IntradayData.index self)))
    by (rewrite Z2Nat.id; [reflexivity | exact Hix]).
  split.
  - cbv [has_next len_data bind gets ret]. now rewrite Hd.
  - subst more. destruct (Z.ltb_spec (IntradayData.index self) (Z.of_nat (len d) - 1)) as [Hlt|Hge].
    + rewrite (next_in_range self d _ Hd Hi) by lia.
      do 2 f_equal. rewrite Nat2Z.inj_succ, <- Hi. reflexivity.
    + apply (next_exhausted self d _ Hd Hi). lia.
Qed.

Lemma has_next_predicts_next_witness :
  let self := retrieved "demo" MarketData.shuffled in
  let more := (IntradayData.index self <? Z.of_nat (len MarketData.shuffled) - 1)%Z in
  has_next self = (Ok more, self) /\
  next self =
    if more
    then (Ok (row_at MarketData.shuffled (Z.to_nat (IntradayData.index self))),
          IntradayData.mk (api_key self) (base_url self) (data self)
                          (IntradayData.index self + 1))
    else (Raise StopIteration, self).
Proof.
  apply (has_next_predicts_next (retrieved "demo" MarketData.shuffled) MarketData.shuffled).
  - reflexivity.
  - cbn. lia.
Defined.

Lemma cursor_stays_below_last_row_witness :
  calls 3 (retrieved "demo" (mkDF [] [])) = repeat (Raise StopIteration) 3.
Proof.
  apply (cursor_stays_below_last_row "demo" (mkDF [] []) 3). cbn. lia.
Defined.

(** X14.  Lines 86-91, 121-126.  On an object that has retrieved nothing
    every call of [next] raises a [TypeError], not [StopIteration], and
    leaves the object as [__init__] made it. *)
Theorem next_before_retrieval_is_type_error (key : string) (k : nat) :
  (forall r, In r (calls k (init key)) -> exists msg, r = Raise (TypeError msg)) /\
  length (calls k (init key)) = k /\
  after k (init key) = init key.
Proof.
  induction k as [|k (IH1 & IH2 & IH3)].
  - repeat split. intros r [].
  - cbn [calls after]. change (next (init key)) with
      (@Raise Row (TypeError "object of type 'NoneType' has no len()"), init key).
    cbn [snd length]. split; [|split; [now rewrite IH2 | exact IH3]].
    intros r [<-|Hr]; [eexists; reflexivity | now apply IH1].
Qed.

End Cursor.

(** ** The historical subclass *)

Section Historical.
Import pd.

(** X13.  Lines 157-196.  [HistoricalData.preprocess_data] does on the
    inherited fields exactly what [MarketData.preprocess_data] does, with
    the same outcome, and leaves [start_date] and [end_date] as they
    were. *)
Theorem historical_call_is_market_call (self : HistoricalData.t) :
  HistoricalData.preprocess_data self =
  (fst (MarketData.preprocess_data (HistoricalData.base self)),
   HistoricalData.mk (snd (MarketData.preprocess_data (HistoricalData.base self)))
                     (HistoricalData.start_date self) (HistoricalData.end_date self)).
Proof.
  destruct self as [b sd ed]. cbn [HistoricalData.base HistoricalData.start_date
                                   HistoricalData.end_date].
  unfold HistoricalData.preprocess_data, MarketData.preprocess_data.
  cbv [bind HistoricalData.self_df MarketData.self_df HistoricalData.base].
  destruct (MarketData.df b) as [d|] eqn:Hdf; [|reflexivity].
  unfold MarketData.close_cols.
  destruct (filter (contains_ci "close") (columns d)) as [|c rest]; [reflexivity|].
  cbv [bind modify ret raise
       HistoricalData.self_df HistoricalData.self_df_col HistoricalData.self_df_set
       HistoricalData.set_df HistoricalData.set_timestamps HistoricalData.set_processed_data
       HistoricalData.base HistoricalData.start_date HistoricalData.end_date
       MarketData.self_df MarketData.self_df_col MarketData.self_df_set
       MarketData.set_df MarketData.df].
  fold (MarketData.normalized c d).
  destruct (lookup "close" (MarketData.normalized c d)) as [|close [|close' more]] eqn:Hl;
    [reflexivity| |reflexivity].
  repeat (rewrite !lookup_setitem_ne by (intros E; discriminate E); rewrite Hl).
  reflexivity.
Qed.

End Historical.
